(** * uvi.py: interactive front-end to [uv init]

    A shallow embedding of [src/uvi.py] and the properties of its
    command-execution and error-recovery core.

    Python values are modelled as follows.
    - [str] is a list of Unicode code points ([text]); [bytes] is a list of
      [Byte.byte].
    - The interpreter's interaction with its environment is explicit: a
      [world] fixes [sys.argv] and the behaviour of every child process, a
      [state] holds the lines still to be read from standard input, the
      number of children spawned so far and the trace of observable
      events.
    - Exceptions ([SystemExit], [KeyboardInterrupt], [EOFError],
      [IndexError], and the [MarkupError] of [rich]) are the error half of
      a small state-and-error monad.  Ctrl-C can arrive while the program
      waits at a prompt or reads the output of a child; spawning a child
      and writing to the terminal are taken to succeed.
    - [rich.print] renders console markup before it writes: the tags of
      the markup are found and matched as [rich.markup] does, and a
      markup that does not render raises [MarkupError] with nothing
      printed.
    - Library functions whose result depends on the Unicode character
      database ([str.lower], [str.isidentifier], [repr], the [\d] class of
      [re]) are fields of the class [PyLib], constrained only by their
      behaviour on ASCII input.  The two library functions that the
      rendering of markup relies on, the normal form of a style name and
      the evaluation of the parameters of a meta tag, are fields of the
      same class and are left unconstrained. *)

From Stdlib Require Import List ZArith NArith Lia Bool Arith.
From Stdlib Require Import Strings.String Strings.Ascii Strings.Byte.
From Stdlib Require Import Numbers.DecimalString.
Import ListNotations.

Set Implicit Arguments.

(** ** Text and bytes *)

Definition codepoint := N.
Definition text := list codepoint.
Definition bytes := list byte.

(** A source-code string literal (all literals used by the program are
    ASCII) as a [text]. *)
Definition txt (s : string) : text :=
  map N_of_ascii (list_ascii_of_string s).

Declare Scope text_scope.
Delimit Scope text_scope with text.
Notation "a +++ b" := (@app codepoint a b)
  (at level 60, right associativity) : text_scope.
Local Open Scope text_scope.

Fixpoint text_eqb (a b : text) : bool :=
  match a, b with
  | [], [] => true
  | x :: a', y :: b' => N.eqb x y && text_eqb a' b'
  | _, _ => false
  end.

(** [x in xs] for a sequence of strings. *)
Definition text_in (x : text) (xs : list text) : bool :=
  existsb (text_eqb x) xs.

(** [s.startswith(p)], returning the remainder. *)
Fixpoint strip_prefix (p s : text) : option text :=
  match p, s with
  | [], _ => Some s
  | x :: p', y :: s' => if N.eqb x y then strip_prefix p' s' else None
  | _ :: _, [] => None
  end.

(** [p in s] for two strings (substring test). *)
Fixpoint is_infix (p s : text) : bool :=
  match strip_prefix p s with
  | Some _ => true
  | None => match s with
            | [] => false
            | _ :: s' => is_infix p s'
            end
  end.

(** [sep.join(parts)] *)
Fixpoint join (sep : text) (parts : list text) : text :=
  match parts with
  | [] => []
  | [p] => p
  | p :: ps => p +++ sep +++ join sep ps
  end.

(** *** [str.strip()]

    Whitespace is what [str.isspace] accepts (CPython's
    [_PyUnicode_IsWhitespace]). *)
Definition is_whitespace (c : codepoint) : bool :=
  ((9 <=? c) && (c <=? 13) || (28 <=? c) && (c <=? 32)
   || (c =? 133) || (c =? 160) || (c =? 5760)
   || (8192 <=? c) && (c <=? 8202)
   || (c =? 8232) || (c =? 8233) || (c =? 8239) || (c =? 8287)
   || (c =? 12288))%N.

Fixpoint lstrip (s : text) : text :=
  match s with
  | c :: s' => if is_whitespace c then lstrip s' else s
  | [] => []
  end.

Definition rstrip (s : text) : text := rev (lstrip (rev s)).

Definition strip (s : text) : text := rstrip (lstrip s).

(** *** ASCII behaviour of the Unicode-dependent library functions *)

Definition is_ascii (c : codepoint) : bool := (c <? 128)%N.

Definition ascii_digit (c : codepoint) : bool := ((48 <=? c) && (c <=? 57))%N.

Definition ascii_lower (c : codepoint) : codepoint :=
  if ((65 <=? c) && (c <=? 90))%N then (c + 32)%N else c.

Definition ascii_ident_start (c : codepoint) : bool :=
  ((65 <=? c) && (c <=? 90) || (97 <=? c) && (c <=? 122) || (c =? 95))%N.

Definition ascii_isidentifier (s : text) : bool :=
  match s with
  | [] => false
  | c :: s' =>
      ascii_ident_start c
      && forallb (fun d => ascii_ident_start d || ascii_digit d) s'
  end.

(** The part of Python's runtime that depends on the Unicode character
    database.  Each function is pinned down on ASCII-only input, where its
    behaviour is fixed by the language reference. *)
Class PyLib := {
  (** [\d] in a [str] pattern: Unicode decimal digits. *)
  re_digit : codepoint -> bool;
  (** [str.lower] *)
  str_lower : text -> text;
  (** [str.isidentifier] *)
  str_isidentifier : text -> bool;
  (** [repr] of a [str] *)
  py_repr : text -> text;
  (** [rich.style.Style.normalize]: the normal form of a style name *)
  style_normalize : text -> text;
  (** the parameters of a meta tag evaluate: [rich.markup.render] gets a
      handler call or a literal out of them with [ast.literal_eval] *)
  meta_params_ok : text -> bool;
  re_digit_ascii :
    forall c, is_ascii c = true -> re_digit c = ascii_digit c;
  str_lower_ascii :
    forall s, forallb is_ascii s = true -> str_lower s = map ascii_lower s;
  str_isidentifier_ascii :
    forall s, forallb is_ascii s = true ->
              str_isidentifier s = ascii_isidentifier s
}.

(** [str(i)] / [f"{i}"] for an integer. *)
Definition str_of_int (i : Z) : text :=
  txt (NilZero.string_of_int (Z.to_int i)).

(** [range(a, b)] *)
Definition py_range (a b : Z) : list Z :=
  map (fun k => (a + Z.of_nat k)%Z) (seq 0 (Z.to_nat (b - a))).

(** [l[i]] with Python's negative indices; [None] stands for [IndexError]. *)
Definition py_getitem {A} (l : list A) (i : Z) : option A :=
  let n := Z.of_nat (List.length l) in
  if (0 <=? i)%Z then nth_error l (Z.to_nat i)
  else if (0 <=? n + i)%Z then nth_error l (Z.to_nat (n + i))
  else None.

(** ** [bytes.decode("utf-8", errors="replace")]

    The decoder walks the bytes once.  Each well-formed sequence yields its
    code point; each maximal ill-formed subsequence yields one error, which
    the [replace] handler turns into U+FFFD. *)

Definition REPLACEMENT : codepoint := 65533%N.

Definition is_cont (b : N) : bool := ((128 <=? b) && (b <=? 191))%N.

Fixpoint utf8_items (bs : bytes) : list (option codepoint) :=
  match bs with
  | [] => []
  | b1 :: t1 =>
    let c1 := Byte.to_N b1 in
    if (c1 <? 128)%N then Some c1 :: utf8_items t1
    else if (c1 <? 194)%N then None :: utf8_items t1
    else if (c1 <? 224)%N then
      match t1 with
      | [] => [None]
      | b2 :: t2 =>
        let c2 := Byte.to_N b2 in
        if is_cont c2
        then Some ((c1 - 192) * 64 + (c2 - 128))%N :: utf8_items t2
        else None :: utf8_items t1
      end
    else if (c1 <? 240)%N then
      match t1 with
      | [] => [None]
      | b2 :: t2 =>
        let c2 := Byte.to_N b2 in
        if negb (is_cont c2)
           || (if (c2 <? 160)%N then (c1 =? 224)%N else (c1 =? 237)%N)
        then None :: utf8_items t1
        else
          match t2 with
          | [] => [None]
          | b3 :: t3 =>
            let c3 := Byte.to_N b3 in
            if is_cont c3
            then Some ((c1 - 224) * 4096 + (c2 - 128) * 64 + (c3 - 128))%N
                 :: utf8_items t3
            else None :: utf8_items t2
          end
      end
    else if (c1 <? 245)%N then
      match t1 with
      | [] => [None]
      | b2 :: t2 =>
        let c2 := Byte.to_N b2 in
        if negb (is_cont c2)
           || (if (c2 <? 144)%N then (c1 =? 240)%N else (c1 =? 244)%N)
        then None :: utf8_items t1
        else
          match t2 with
          | [] => [None]
          | b3 :: t3 =>
            let c3 := Byte.to_N b3 in
            if negb (is_cont c3) then None :: utf8_items t2
            else
              match t3 with
              | [] => [None]
              | b4 :: t4 =>
                let c4 := Byte.to_N b4 in
                if is_cont c4
                then Some ((c1 - 240) * 262144 + (c2 - 128) * 4096
                           + (c3 - 128) * 64 + (c4 - 128))%N
                     :: utf8_items t4
                else None :: utf8_items t3
              end
          end
      end
    else None :: utf8_items t1
  end.

Definition item_or_replacement (i : option codepoint) : codepoint :=
  match i with Some c => c | None => REPLACEMENT end.

(** [data.decode("utf-8", errors="replace")] *)
Definition decode_replace (data : bytes) : text :=
  map item_or_replacement (utf8_items data).

(** The bytes are well-formed UTF-8: decoding meets no error. *)
Definition well_formed_utf8 (data : bytes) : bool :=
  forallb (fun i => match i with Some _ => true | None => false end)
          (utf8_items data).

(** [str.encode("utf-8")], as byte values; used to compare text with the
    raw bytes it was decoded from. *)
Definition utf8_encode_cp (c : codepoint) : list N :=
  (if c <? 128 then [c]
   else if c <? 2048 then [192 + c / 64; 128 + c mod 64]
   else if c <? 65536
        then [224 + c / 4096; 128 + (c / 64) mod 64; 128 + c mod 64]
        else [240 + c / 262144; 128 + (c / 4096) mod 64;
              128 + (c / 64) mod 64; 128 + c mod 64])%N.

Definition utf8_encode (s : text) : list N := flat_map utf8_encode_cp s.

Definition byte_values (data : bytes) : list N := map Byte.to_N data.

(** ** The fragment of [re] used by the program

    Literal text, single-character classes, greedy repetition of a class,
    concatenation, one capturing group and a back-reference to it.  The
    matcher enumerates matches in the order a backtracking engine tries
    them, so the head of the list is the match [re] reports. *)

Inductive atom :=
| Chr (c : codepoint)      (* a literal character *)
| Digit                    (* \d *)
| Dot.                     (* . under re.DOTALL *)

Inductive regex :=
| Str (p : text)           (* literal text *)
| Many (a : atom)          (* a*  (greedy) *)
| Many1 (a : atom)         (* a+  (greedy) *)
| Cat (r1 r2 : regex)
| Group (r : regex)        (* ( r ), group 1 *)
| Backref.                 (* \1 *)

Section Regex.
Context `{PyLib}.

Definition atom_ok (a : atom) (c : codepoint) : bool :=
  match a with
  | Chr d => N.eqb c d
  | Digit => re_digit c
  | Dot => true
  end.

(** All ways to split [s] into a run of [a] and a remainder, longest run
    first. *)
Fixpoint many (a : atom) (s : text) : list (text * text) :=
  match s with
  | c :: s' =>
      if atom_ok a c
      then map (fun mr => (c :: fst mr, snd mr)) (many a s') ++ [([], s)]
      else [([], s)]
  | [] => [([], [])]
  end.

Definition nonempty (mr : text * text) : bool :=
  match fst mr with [] => false | _ :: _ => true end.

(** One result of matching at the start of the subject: the text matched,
    the contents of group 1, and the rest of the subject. *)
Record result := Result {
  matched : text;
  group1 : option text;
  rest : text
}.

Fixpoint exec (r : regex) (g : option text) (s : text) : list result :=
  match r with
  | Str p =>
      match strip_prefix p s with
      | Some s' => [Result p g s']
      | None => []
      end
  | Many a => map (fun mr => Result (fst mr) g (snd mr)) (many a s)
  | Many1 a =>
      map (fun mr => Result (fst mr) g (snd mr)) (filter nonempty (many a s))
  | Cat r1 r2 =>
      flat_map
        (fun x =>
           map (fun y => Result (matched x +++ matched y) (group1 y) (rest y))
               (exec r2 (group1 x) (rest x)))
        (exec r1 g s)
  | Group r1 =>
      map (fun x => Result (matched x) (Some (matched x)) (rest x))
          (exec r1 g s)
  | Backref =>
      match g with
      | Some v =>
          match strip_prefix v s with
          | Some s' => [Result v g s']
          | None => []
          end
      | None => []
      end
  end.

(** [re.search(r, s)]: the first match at the leftmost position that has
    one; [None] when no position has a match. *)
Fixpoint re_search (r : regex) (s : text) : option result :=
  match exec r None s with
  | x :: _ => Some x
  | [] =>
      match s with
      | [] => None
      | _ :: s' => re_search r s'
      end
  end.

(** [r"No interpreter found for Python (\d+\.\d+).*A managed Python
    download is available.*use `uv python install \1`"] *)
Definition pattern : regex :=
  Cat (Str (txt "No interpreter found for Python "))
 (Cat (Group (Cat (Many1 Digit) (Cat (Str (txt ".")) (Many1 Digit))))
 (Cat (Many Dot)
 (Cat (Str (txt "A managed Python download is available"))
 (Cat (Many Dot)
 (Cat (Str (txt "use `uv python install "))
 (Cat Backref
      (Str (txt "`")))))))).

Definition detect_missing_ver (output : text) : option text :=
  match re_search pattern output with
  | Some m => group1 m
  | None => None
  end.

End Regex.

(** ** Console markup: what [rich.print] accepts

    [rich.markup.render] finds the tags of a markup with the regular
    expression [RE_TAGS] (any number of backslashes, an opening bracket, a
    character of [a-z#/@], the shortest run of characters other than the
    opening bracket, a closing bracket) and keeps a stack of the styles
    that are open.  It raises [MarkupError] for a closing tag
    that closes nothing and for a meta tag whose parameters do not
    evaluate.  The text between the tags plays no part in this. *)

(** A tag: its name, and what follows the first [=] if there is one. *)
Record tag := Tag {
  tag_name : text;
  tag_parameters : option text
}.

(** [[a-z#/@]] *)
Definition tag_first (c : codepoint) : bool :=
  ((97 <=? c) && (c <=? 122) || (c =? 35) || (c =? 47) || (c =? 64))%N.

(** [\\*]: how many backslashes the text starts with, and what follows
    them. *)
Fixpoint backslashes (s : text) : nat * text :=
  match s with
  | c :: s' =>
      if (c =? 92)%N then let (n, r) := backslashes s' in (S n, r)
      else (O, s)
  | [] => (O, [])
  end.

(** [[^[]*?]] followed by []]: the characters up to the next []], none of
    them a [[]. *)
Fixpoint tag_rest (s : text) : option text :=
  match s with
  | [] => None
  | c :: s' =>
      if (c =? 93)%N then Some []
      else if (c =? 91)%N then None
      else match tag_rest s' with
           | Some body => Some (c :: body)
           | None => None
           end
  end.

(** [RE_TAGS] matched at the start of the text: the number of backslashes
    (group 2) and the tag text (group 3).  The match is as long as the
    backslashes, the tag text and the two brackets. *)
Definition re_tags_match (s : text) : option (nat * text) :=
  let (n, s1) := backslashes s in
  match s1 with
  | b :: s1' =>
      if (b =? 91)%N then
        match s1' with
        | c :: s2 =>
            if tag_first c then
              match tag_rest s2 with
              | Some body => Some (n, c :: body)
              | None => None
              end
            else None
        | [] => None
        end
      else None
  | [] => None
  end.

(** [tag_text.partition("=")] *)
Fixpoint partition_eq (s : text) : text * option text :=
  match s with
  | [] => ([], None)
  | c :: s' =>
      if (c =? 61)%N then ([], Some s')
      else let (nm, ps) := partition_eq s' in (c :: nm, ps)
  end.

(** [_parse]: the tags that [RE_TAGS.finditer] finds, leftmost first and
    without overlap, leaving out those escaped by an odd number of
    backslashes.  [skip] counts the characters of the last match that are
    still to be passed. *)
Fixpoint parse_tags (markup : text) (skip : nat) : list tag :=
  match markup with
  | [] => []
  | _ :: rest =>
      match skip with
      | S k => parse_tags rest k
      | O =>
          match re_tags_match markup with
          | Some (n, t) =>
              (if Nat.odd n then []
               else [let (nm, ps) := partition_eq t in Tag nm ps])
              ++ parse_tags rest (n + S (List.length t))
          | None => parse_tags rest 0
          end
      end
  end.

Section Markup.
Context `{PyLib}.

(** [pop_style]: take the innermost open tag of that name off the stack
    (the top of the stack comes first). *)
Fixpoint pop_style (style_name : text) (style_stack : list tag)
  : option (tag * list tag) :=
  match style_stack with
  | [] => None
  | t :: below =>
      if text_eqb (tag_name t) style_name then Some (t, below)
      else match pop_style style_name below with
           | Some (found, below') => Some (found, t :: below')
           | None => None
           end
  end.

(** Closing a tag evaluates its parameters when it is a meta tag, one
    whose name starts with [@], and has parameters. *)
Definition closes (open_tag : tag) : bool :=
  match tag_name open_tag with
  | c :: _ =>
      if (c =? 64)%N then
        match tag_parameters open_tag with
        | Some (_ :: _ as ps) => meta_params_ok ps
        | _ => true
        end
      else true
  | [] => true
  end.

(** The loop of [render] over the tags: [false] stands for
    [MarkupError]. *)
Fixpoint render_tags (tags style_stack : list tag) : bool :=
  match tags with
  | [] => true
  | t :: tags' =>
      match tag_name t with
      | c :: nm =>
          if (c =? 47)%N then
            let style_name := strip nm in
            match
              match style_name with
              | _ :: _ => pop_style (style_normalize style_name) style_stack
              | [] =>
                  match style_stack with
                  | top :: below => Some (top, below)
                  | [] => None
                  end
              end
            with
            | Some (open_tag, style_stack') =>
                closes open_tag && render_tags tags' style_stack'
            | None => false
            end
          else
            render_tags tags'
              (Tag (style_normalize (tag_name t)) (tag_parameters t)
               :: style_stack)
      | [] =>
          render_tags tags'
            (Tag (style_normalize []) (tag_parameters t) :: style_stack)
      end
  end.

(** [rich.markup.render(markup)] returns. *)
Definition markup_ok (markup : text) : bool :=
  render_tags (parse_tags markup 0) [].

End Markup.

(** ** The interpreter's environment *)

Inductive exn :=
| SystemExit (code : Z)
| KeyboardInterrupt
| EOFError
| IndexError
| MarkupError
| Stuck.
(** [Stuck] is not a Python exception: it marks a [while True] loop whose
    bounded unrolling ran out.  The loops of the program are unrolled once
    more than there are lines left on standard input, and the program never
    produces it ([main_never_stuck]). *)

(** What one call of [input()] meets: a line, or Ctrl-C at the prompt.  An
    exhausted list is end of file. *)
Inductive stdin_event :=
| Line (l : text)
| Interrupt.

(** What one call of [os.read(master, 1024)] meets.  An exhausted list is
    end of file, like an empty [ReadData]. *)
Inductive read_result :=
| ReadData (data : bytes)
| ReadOSError
| ReadInterrupt.

(** A child process as its parent observes it. *)
Record child := Child {
  reads : list read_result;
  returncode : Z
}.

Record world := World {
  argv : list text;                  (* sys.argv *)
  popen : nat -> text -> child       (* the n-th child, running a command *)
}.

Inductive stream := Stdout | Stderr.

Inductive event :=
| EPrompt (prompt : text)                 (* input(prompt) *)
| EPrint (file : stream) (markup : text)  (* rich.print(markup, file=...) *)
| ESpawn (cmd : text)                     (* subprocess.Popen(cmd, shell=True) *)
| EWrite (data : bytes).                  (* sys.stdout.buffer.write + flush *)

Record state := State {
  stdin : list stdin_event;
  spawned : nat;
  trace : list event
}.

Definition log (e : event) (st : state) : state :=
  State (stdin st) (spawned st) (trace st ++ [e]).

(** ** A state-and-exception monad *)

Inductive outcome (A : Type) :=
| Ret (a : A)
| Raise (e : exn).
Arguments Ret {A} a.
Arguments Raise {A} e.

Definition M (A : Type) := state -> outcome A * state.

Definition ret {A} (a : A) : M A := fun st => (Ret a, st).

Definition raise {A} (e : exn) : M A := fun st => (Raise e, st).

Definition bind {A B} (c : M A) (k : A -> M B) : M B :=
  fun st =>
    match c st with
    | (Ret a, st') => k a st'
    | (Raise e, st') => (Raise e, st')
    end.

Notation "x <- c ;; k" := (bind c (fun x => k))
  (at level 61, c at next level, right associativity).
Notation "c ;;; k" := (bind c (fun _ => k))
  (at level 61, right associativity).

(** [sys.exit(code)] *)
Definition sys_exit {A} (code : Z) : M A := raise (SystemExit code).

(** [try: body / except KeyboardInterrupt: handler] *)
Definition try_except_KeyboardInterrupt {A} (body handler : M A) : M A :=
  fun st =>
    match body st with
    | (Raise KeyboardInterrupt, st') => handler st'
    | r => r
    end.

(** [while True: body], the body either returning from the function or
    going round again with new values of the loop's variables. *)
Fixpoint while_true {S A} (fuel : nat) (body : S -> M (A + S)) (s : S)
  : M A :=
  match fuel with
  | O => raise Stuck
  | Datatypes.S fuel' =>
      r <- body s ;;
      match r with
      | inl a => ret a
      | inr s' => while_true fuel' body s'
      end
  end.

(** [rich.print(markup, file=file)]: the markup is rendered first, so that
    nothing is written when it raises. *)
Definition rprint `{PyLib} (file : stream) (markup : text) : M unit :=
  fun st =>
    if markup_ok markup then (Ret tt, log (EPrint file markup) st)
    else (Raise MarkupError, st).

(** [input(prompt)] *)
Definition input (prompt : text) : M text :=
  fun st =>
    let tr := trace st ++ [EPrompt prompt] in
    match stdin st with
    | [] => (Raise EOFError, State [] (spawned st) tr)
    | Line l :: more => (Ret l, State more (spawned st) tr)
    | Interrupt :: more => (Raise KeyboardInterrupt, State more (spawned st) tr)
    end.

(** ** The program *)

Definition __version__ : text := txt "1.0.0".

Definition __doc__ : text := txt "uvi.py -- based interactive uv init script".

Definition PROJ_TYPES : list (text * text) :=
  [ (txt "b", txt "bare");
    (txt "p", txt "package");
    (txt "a", txt "app");
    (txt "l", txt "lib");
    (txt "s", txt "script") ].

(** [k in d] *)
Definition dict_has (d : list (text * text)) (k : text) : bool :=
  text_in k (map fst d).

(** [d.get(k, default)] *)
Fixpoint dict_get (d : list (text * text)) (k default : text) : text :=
  match d with
  | [] => default
  | (k', v) :: d' => if text_eqb k k' then v else dict_get d' k default
  end.

Definition PY3_SUPPORT : list Z := py_range 7 15.

Definition PROJ_TYPES_STR : text :=
  join (txt ", ")
       (map (fun kv => txt "[cyan]" +++ fst kv +++ txt "/" +++ snd kv
                       +++ txt "[/cyan]")
            PROJ_TYPES).

Definition USAGE : text :=
  txt "[bold green]Usage:[/] [cyan]uvi.py [dim][-h][/] type name[/]".

Definition HELP : text :=
  __doc__ +++ txt "

" +++ USAGE +++ txt "

[bold green]Positionals:[/]
  [cyan]type[/]           Project type [dim cyan][" +++ PROJ_TYPES_STR
  +++ txt "][/]
  [cyan]name[/]           Project name

[bold green]Optionals:[/bold green]
  [cyan]-h[/], [cyan]--help[/]     Show this help message and exit
  [cyan]-v[/], [cyan]--version[/]   Show program's version number and exit
".

Section Program.
Context `{PyLib}.
Variable W : world.

(** *** I/O *)

(** [perr]: print an error message to stderr. *)
Definition perr (msg : text) : M unit :=
  rprint Stderr (txt "[red]error:[/] " +++ msg).

(** [inp]: get user input with optional supplementary text. *)
Definition inp (prompt : text) (sup : option text) : M text :=
  let sup_str :=
    match sup with
    | Some s => txt " [cyan](" +++ s +++ txt ")"
    | None => []
    end in
  l <- input (txt "[green]" +++ prompt +++ sup_str +++ txt "[/] > ") ;;
  ret (strip l).

(** One round of the loop of [yn_inp]; the loop variable is [err_str]. *)
Definition yn_inp_body (prompt err_str : text) : M (bool + text) :=
  a <- inp (err_str +++ prompt) (Some (txt "y/n")) ;;
  let inpt := str_lower a in
  if text_in inpt [txt "yes"; txt "y"] then ret (inl true)
  else if text_in inpt [txt "no"; txt "n"] then ret (inl false)
  else ret (inr (txt "[red]! [/]")).

(** [yn_inp]: get boolean input (yes or no). *)
Definition yn_inp (prompt : text) : M bool :=
  fun st =>
    while_true (S (List.length (stdin st))) (yn_inp_body prompt) [] st.

(** [cmd_run]: the read loop.  [outbuf] is returned when the loop is left by
    [break] or by the [OSError] handler. *)
Fixpoint read_loop (rs : list read_result) (outbuf : list text)
  : M (list text) :=
  match rs with
  | [] => ret outbuf
  | ReadOSError :: _ => ret outbuf
  | ReadInterrupt :: _ => raise KeyboardInterrupt
  | ReadData data :: rs' =>
      match data with
      | [] => ret outbuf
      | _ :: _ =>
          (fun st => (Ret tt, log (EWrite data) st)) ;;;
          read_loop rs' (outbuf ++ [decode_replace data])
      end
  end.

(** [cmd_run]: run command, stream output to stdout, return exit code and
    captured output. *)
Definition cmd_run (cmd : text) : M (Z * text) :=
  fun st =>
    let proc := popen W (spawned st) cmd in
    (outbuf <- read_loop (reads proc) [] ;;
     let exit_code := returncode proc in
     ret (exit_code, join [] outbuf))
      (State (stdin st) (S (spawned st)) (trace st ++ [ESpawn cmd])).

(** [install_missing_ver]: install missing Python version. *)
Definition install_missing_ver (missing_ver : text) : M unit :=
  yes <- yn_inp (txt "install Python " +++ missing_ver +++ txt "?") ;;
  if yes : bool then
    rprint Stderr (txt "
[cyan]installing Python " +++ missing_ver +++ txt "[/]") ;;;
    r <- cmd_run (txt "uv python install " +++ missing_ver) ;;
    let install_code := fst r in
    (if negb (install_code =? 0)%Z then
       perr (txt "failed to install Python " +++ missing_ver) ;;;
       sys_exit install_code
     else ret tt) ;;;
    rprint Stderr (txt "[cyan]retrying init[/]
")
  else ret tt.

(** *** Argument validation *)

Definition valid_proj_type (proj_type : text) : M bool :=
  if negb (dict_has PROJ_TYPES proj_type)
     && negb (text_in proj_type (map snd PROJ_TYPES))
  then
    perr (txt "invalid project type: [yellow]" +++ proj_type
          +++ txt "[/] (see [cyan]uvi --help[/])") ;;;
    ret false
  else ret true.

Definition valid_proj_name (proj_name : text) : M bool :=
  if negb (str_isidentifier proj_name) then
    perr (txt "invalid project name: " +++ proj_name) ;;;
    ret false
  else ret true.

(** [sys.argv[i]] *)
Definition sys_argv (i : nat) : M text :=
  match nth_error (argv W) i with
  | Some a => ret a
  | None => raise IndexError
  end.

(** [parse_args]: validate CLI args. *)
Definition parse_args : M (text * text) :=
  let argc := (Z.of_nat (List.length (argv W)) - 1)%Z in
  (if text_in (txt "-h") (argv W) || text_in (txt "--help") (argv W) then
     rprint Stdout HELP ;;; sys_exit 0
   else ret tt) ;;;
  (if text_in (txt "-v") (argv W) || text_in (txt "--version") (argv W) then
     rprint Stdout (txt "[cyan]uvi.py[/] [green]v" +++ __version__
                    +++ txt "[/]") ;;;
     sys_exit 0
   else ret tt) ;;;
  (if (argc =? 0)%Z then
     perr (txt "missing args: project type & project name") ;;;
     sys_exit 2
   else ret tt) ;;;
  (if (argc =? 1)%Z then
     a1 <- sys_argv 1 ;;
     ok <- valid_proj_type a1 ;;
     (if ok : bool then perr (txt "missing arg: project name") else ret tt) ;;;
     sys_exit 2
   else if (argc =? 2)%Z then
     a1 <- sys_argv 1 ;;
     ok1 <- valid_proj_type a1 ;;
     (if negb ok1 then sys_exit 2
      else
        a2 <- sys_argv 2 ;;
        ok2 <- valid_proj_name a2 ;;
        if negb ok2 then sys_exit 2 else ret tt)
   else if (argc >? 2)%Z then
     perr (txt "too many args: give only project type & project name") ;;;
     sys_exit 2
   else ret tt) ;;;
  proj_type_arg <- sys_argv 1 ;;
  let proj_type := dict_get PROJ_TYPES proj_type_arg proj_type_arg in
  a2 <- sys_argv 2 ;;
  ret (proj_type, a2).

(** *** Main inputs *)

(** [f"3.{i}" for i in PY3_SUPPORT] *)
Definition supported_versions : list text :=
  map (fun i => txt "3." +++ str_of_int i) PY3_SUPPORT.

(** [PY3_SUPPORT[i]] *)
Definition py3_support (i : Z) : M Z :=
  match py_getitem PY3_SUPPORT i with
  | Some v => ret v
  | None => raise IndexError
  end.

(** One round of the loop of [get_ver]. *)
Definition get_ver_body (_ : unit) : M (text + unit) :=
  a <- inp (txt "version") (Some (txt "enter for default")) ;;
  let ver := str_lower a in
  if text_eqb ver [] then
    d <- py3_support (-2) ;;
    ret (inl (txt "3." +++ str_of_int d))
  else if text_in ver supported_versions then ret (inl ver)
  else
    lo <- py3_support 0 ;;
    hi <- py3_support (-1) ;;
    perr (txt "invalid version: [yellow]" +++ ver +++ txt "[/] "
          +++ txt "([cyan]3." +++ str_of_int lo +++ txt "[/]-[cyan]3."
          +++ str_of_int hi +++ txt "[/] only)") ;;;
    ret (inr tt).

Definition get_ver : M text :=
  fun st => while_true (S (List.length (stdin st))) get_ver_body tt st.

Definition get_desc : M text :=
  a <- inp (txt "desc") None ;; ret (py_repr a).

Definition get_vcs : M bool := yn_inp (txt "vcs").

Definition get_rm : M bool := yn_inp (txt "readme").

(** *** Main *)

(** [if missing_ver:] for an optional string. *)
Definition truthy (o : option text) : bool :=
  match o with
  | Some (_ :: _) => true
  | _ => false
  end.

(** [main], lines 204-214: parse the arguments, ask the questions and
    assemble the command. *)
Definition main_cmd : M text :=
  ptpn <- parse_args ;;
  let pt := fst ptpn in
  let pn := snd ptpn in
  let is_script := text_eqb pt (txt "script") in
  ver <- get_ver ;;
  if is_script then
    ret (txt "uv init " +++ pn +++ txt " --" +++ pt +++ txt " --python "
         +++ ver)
  else
    desc <- get_desc ;;
    v <- get_vcs ;;
    let vcs := if v : bool then txt "'git'" else txt "'none'" in
    r <- get_rm ;;
    let readme_flag := if r : bool then [] else txt "--no-readme" in
    ret (txt "uv init " +++ pn +++ txt " --" +++ pt +++ txt " --python "
         +++ ver +++ txt " --description " +++ desc +++ txt " --vcs "
         +++ vcs +++ txt " " +++ readme_flag).

(** [main], lines 216-224: run the command, recover from a missing
    interpreter, exit. *)
Definition main_run (cmd : text) : M unit :=
  r <- cmd_run cmd ;;
  let exit_code := fst r in
  let output := snd r in
  exit_code' <-
    (if negb (exit_code =? 0)%Z then
       let missing_ver := detect_missing_ver output in
       if truthy missing_ver then
         install_missing_ver
           (match missing_ver with Some v => v | None => [] end) ;;;
         r2 <- cmd_run cmd ;;
         ret (fst r2)
       else ret exit_code
     else ret exit_code) ;;
  sys_exit exit_code'.

Definition main : M unit :=
  try_except_KeyboardInterrupt
    (cmd <- main_cmd ;; main_run cmd)
    (rprint Stdout (txt "
[red]stopped[/]") ;;; sys_exit 130).

End Program.

(** [repr] of a string of ASCII characters: double quotes when the string
    holds a single quote and no double quote, single quotes otherwise;
    the backslash, the quote in use and the control characters are
    escaped. *)
Definition hex_digit (n : N) : codepoint :=
  (if n <? 10 then 48 + n else 87 + n)%N.

Definition repr_char (quote c : codepoint) : text :=
  (if c =? 92 then [92; 92]
   else if c =? quote then [92; quote]
   else if c =? 9 then [92; 116]
   else if c =? 10 then [92; 110]
   else if c =? 13 then [92; 114]
   else if (c <? 32) || (c =? 127)
        then [92; 120; hex_digit (c / 16); hex_digit (c mod 16)]
        else [c])%N.

Definition ascii_repr (s : text) : text :=
  let quote :=
    if existsb (N.eqb 39) s && negb (existsb (N.eqb 34) s) then 34%N
    else 39%N in
  [quote] +++ flat_map (repr_char quote) s +++ [quote].

(** An instance of the library to run the program with.  It agrees with
    CPython on ASCII input.  Outside ASCII it is a stand-in: no character
    is a digit, a letter or upper case, and every character is printable.
    For [rich], a style name is normalised by stripping and lowering it,
    which is what [Style.normalize] does with a single colour or
    attribute name in lower case, and no parameter of a meta tag
    evaluates. *)
Definition ascii_lib : PyLib :=
  {| re_digit := ascii_digit;
     str_lower := map ascii_lower;
     str_isidentifier := ascii_isidentifier;
     py_repr := ascii_repr;
     style_normalize := fun s => map ascii_lower (strip s);
     meta_params_ok := fun _ => false;
     re_digit_ascii := fun c _ => eq_refl;
     str_lower_ascii := fun s _ => eq_refl;
     str_isidentifier_ascii := fun s _ => eq_refl |}.

(** ** Observations on traces *)

(** The commands spawned, in order. *)
Fixpoint spawns (tr : list event) : list text :=
  match tr with
  | [] => []
  | ESpawn cmd :: tr' => cmd :: spawns tr'
  | _ :: tr' => spawns tr'
  end.

(** The chunks relayed to standard output by [cmd_run], in order. *)
Fixpoint written (tr : list event) : list bytes :=
  match tr with
  | [] => []
  | EWrite data :: tr' => data :: written tr'
  | _ :: tr' => written tr'
  end.

(** The chunks the read loop of [cmd_run] consumes before it ends. *)
Fixpoint relayed (rs : list read_result) : list bytes :=
  match rs with
  | ReadData (b :: data) :: rs' => (b :: data) :: relayed rs'
  | _ => []
  end.

(** The read loop is left by Ctrl-C rather than by end of output. *)
Fixpoint interrupted (rs : list read_result) : bool :=
  match rs with
  | ReadData (_ :: _) :: rs' => interrupted rs'
  | ReadInterrupt :: _ => true
  | _ => false
  end.

(** The remediation command for a version. *)
Definition install_cmd (v : text) : text := txt "uv python install " +++ v.

(** The consent prompt for a version. *)
Definition install_prompt (v : text) : text :=
  txt "install Python " +++ v +++ txt "?".

(** * Vocabulary of the statements *)

(** A computation that spawns nothing. *)
Definition quiet {A} (c : M A) : Prop :=
  forall st, spawns (trace (snd (c st))) = spawns (trace st)
             /\ spawned (snd (c st)) = spawned st.

(** A computation that never runs out of loop fuel. *)
Definition unstuck {A} (c : M A) : Prop :=
  forall st, fst (c st) <> Raise Stuck.

(** What a computation returns, when it returns. *)
Definition returns {A} (c : M A) (P : A -> Prop) : Prop :=
  forall st a st', c st = (Ret a, st') -> P a.

(** A sufficient condition for a list of tags to render whatever the
    library makes of the style names: no tag has parameters, and every
    closing tag is the implicit one or names the innermost open tag the
    way that tag was written.  [open_names] holds the names of the open
    tags, innermost first. *)
Fixpoint balanced (tags : list tag) (open_names : list text) : bool :=
  match tags with
  | [] => true
  | t :: tags' =>
      match tag_parameters t with
      | Some _ => false
      | None =>
          match tag_name t with
          | c :: nm =>
              if (c =? 47)%N then
                match open_names with
                | top :: below =>
                    match strip nm with
                    | [] => true
                    | _ :: _ => text_eqb (strip nm) top
                    end && balanced tags' below
                | [] => false
                end
              else balanced tags' (tag_name t :: open_names)
          | [] => balanced tags' ([] :: open_names)
          end
      end
  end.

(** A character that neither opens nor escapes a tag. *)
Definition plain (c : codepoint) : bool :=
  negb ((c =? 91) || (c =? 92))%N.

(** The three messages of [install_missing_ver], as passed to
    [rich.print]. *)
Definition installing_msg (v : text) : text :=
  txt "
[cyan]installing Python " +++ v +++ txt "[/]".

Definition failed_msg (v : text) : text :=
  txt "[red]error:[/] " +++ txt "failed to install Python " +++ v.

Definition retrying_msg : text := txt "[cyan]retrying init[/]
".

(** A command is a remediation command. *)
Definition is_install (cmd : text) : bool :=
  match strip_prefix (txt "uv python install ") cmd with
  | Some _ => true
  | None => false
  end.

(** What [parse_args] prints for [-v]. *)
Definition version_msg : text :=
  txt "[cyan]uvi.py[/] [green]v" +++ __version__ +++ txt "[/]".

(** What [perr] prints for a missing project name. *)
Definition missing_name_msg : text :=
  txt "[red]error:[/] " +++ txt "missing arg: project name".

(** The four option strings [parse_args] looks for. *)
Definition flags : list text :=
  [txt "-h"; txt "--help"; txt "-v"; txt "--version"].

(** [t] is one of the short codes or one of the long names. *)
Definition valid_type (t : text) : Prop :=
  In t (map fst PROJ_TYPES) \/ In t (map snd PROJ_TYPES).

(** The version an empty answer stands for. *)
Definition DEFAULT_VERSION : text := txt "3.13".

(** The prompt of [get_ver], as passed to [input]. *)
Definition version_prompt : text :=
  txt "[green]" +++ txt "version" +++ txt " [cyan]("
      +++ txt "enter for default" +++ txt ")" +++ txt "[/] > ".

(** What [get_ver] prints for an answer it rejects. *)
Definition invalid_version_msg (ver : text) : text :=
  txt "[red]error:[/] "
  +++ (txt "invalid version: [yellow]" +++ ver +++ txt "[/] "
       +++ txt "([cyan]3." +++ str_of_int 7 +++ txt "[/]-[cyan]3."
       +++ str_of_int 14 +++ txt "[/] only)").

(** The state after one prompt for the version has read one line. *)
Definition prompted (st : state) (more : list stdin_event) : state :=
  State more (spawned st) (trace st ++ [EPrompt version_prompt]).

(** The claim as the specification words it: the text [cmd_run] returns
    is, byte for byte, what it wrote to standard output during the run. *)
Definition capture_equals_relay : Prop :=
  forall (W : world) (cmd : text) (st st' : state) (code : Z) (out : text)
         (evs : list event),
    cmd_run W cmd st = (Ret (code, out), st') ->
    trace st' = trace st ++ evs ->
    utf8_encode out = byte_values (List.concat (written evs)).

(** A child that writes the single byte 0xFF and exits with code 0. *)
Definition child_0xFF : child := Child [ReadData [xff]] 0.

Section Vocabulary.
Context `{PyLib}.

(** What a regular expression matches: the text, given the contents of
    group 1 before the match, and the contents of group 1 after it. *)
Inductive Matches : regex -> option text -> text -> option text -> Prop :=
| MStr p g : Matches (Str p) g p g
| MMany a g w :
    Forall (fun c => atom_ok a c = true) w -> Matches (Many a) g w g
| MMany1 a g w :
    w <> [] -> Forall (fun c => atom_ok a c = true) w ->
    Matches (Many1 a) g w g
| MCat r1 r2 g w1 g1 w2 g2 :
    Matches r1 g w1 g1 -> Matches r2 g1 w2 g2 ->
    Matches (Cat r1 r2) g (w1 +++ w2) g2
| MGroup r g w g' : Matches r g w g' -> Matches (Group r) g w (Some w)
| MBackref v : Matches Backref (Some v) v (Some v).

(** A version identifier: digits, a dot, digits. *)
Definition is_version (V : text) : Prop :=
  exists a b,
    V = a +++ txt "." +++ b /\ a <> [] /\ b <> []
    /\ Forall (fun c => re_digit c = true) a
    /\ Forall (fun c => re_digit c = true) b.

(** The text contains a fragment saying that no interpreter was found for
    version [V] and, somewhere later, the fragment that announces a managed
    download and names the command installing the same [V]. *)
Definition reports_missing (V output : text) : Prop :=
  exists pre mid1 mid2 post,
    output =
    pre +++ txt "No interpreter found for Python " +++ V +++ mid1
        +++ txt "A managed Python download is available" +++ mid2
        +++ txt "use `uv python install " +++ V +++ txt "`" +++ post.

(** The answer as [get_ver] sees it: stripped by [inp], then lowered. *)
Definition normalize (l : text) : text := str_lower (strip l).

(** An answer that is neither empty nor a supported version. *)
Definition invalid_answer (l : text) : Prop :=
  normalize l <> [] /\ ~ In (normalize l) supported_versions.

(** The message that rejects an answer renders. *)
Definition rejection_renders (l : text) : Prop :=
  markup_ok (invalid_version_msg (normalize l)) = true.

(** An answer that [get_ver] accepts. *)
Definition valid_answer (l : text) : Prop :=
  normalize l = [] \/ In (normalize l) supported_versions.

(** What an accepted answer resolves to. *)
Definition resolve (l : text) : text :=
  if text_eqb (normalize l) [] then DEFAULT_VERSION else normalize l.

(** The events of the rounds that reject the answers [bad]. *)
Definition rejections (bad : list text) : list event :=
  flat_map (fun l => [EPrompt version_prompt;
                      EPrint Stderr (invalid_version_msg (normalize l))])
           bad.

End Vocabulary.

(** ** Sample invocations

    Concrete worlds and the states they lead through, run with the ASCII
    fragment of the library. *)

(** What [uv init] prints when the interpreter is missing. *)
Definition missing_3_13 : bytes :=
  list_byte_of_string
    "error: No interpreter found for Python 3.13 in managed installations
hint: A managed Python download is available for Python 3.13, use `uv python install 3.13` to allow".

(** A world whose successive children are those of a list. *)
Definition scripted (args : list text) (children : list child) : world :=
  World args (fun n _ => nth n children (Child [] 0)).

Definition argv_script_foo : list text := [txt "uvi.py"; txt "s"; txt "foo"].

Definition cmd_script_foo : text := txt "uv init foo --script --python 3.13".

Definition fails_missing (code : Z) : child :=
  Child [ReadData missing_3_13; ReadOSError] code.

Definition prints (s : string) (code : Z) : child :=
  Child [ReadData (list_byte_of_string s); ReadOSError] code.

Definition decline_world : world :=
  scripted argv_script_foo [fails_missing 2; fails_missing 1].

Definition decline_st0 : state := State [Line []; Line (txt "n")] 0 [].

Definition decline_st1 : state :=
  snd (@main_cmd ascii_lib decline_world decline_st0).

Definition decline_st2 : state :=
  snd (cmd_run decline_world cmd_script_foo decline_st1).

Definition decline_st3 : state :=
  snd (@yn_inp ascii_lib (install_prompt (txt "3.13")) decline_st2).

Definition decline_st4 : state :=
  snd (cmd_run decline_world cmd_script_foo decline_st3).

Definition failed_world : world :=
  scripted argv_script_foo [fails_missing 2; prints "no network" 3].

Definition failed_st0 : state := State [Line []; Line (txt "y")] 0 [].

Definition failed_st1 : state :=
  snd (@main_cmd ascii_lib failed_world failed_st0).

Definition failed_st2 : state :=
  snd (cmd_run failed_world cmd_script_foo failed_st1).

Definition failed_st3 : state :=
  snd (@yn_inp ascii_lib (install_prompt (txt "3.13")) failed_st2).

Definition failed_st4 : state :=
  snd (cmd_run failed_world (install_cmd (txt "3.13"))
               (log (EPrint Stderr (installing_msg (txt "3.13")))
                    failed_st3)).

Definition retry_world : world :=
  scripted argv_script_foo
           [fails_missing 2; prints "installed" 0; fails_missing 2].

Definition retry_st0 : state := State [Line []; Line (txt "y")] 0 [].

Definition retry_st1 : state :=
  snd (@main_cmd ascii_lib retry_world retry_st0).

Definition retry_st2 : state :=
  snd (cmd_run retry_world cmd_script_foo retry_st1).

Definition retry_st3 : state :=
  snd (@install_missing_ver ascii_lib retry_world (txt "3.13") retry_st2).

Definition retry_st4 : state :=
  snd (cmd_run retry_world cmd_script_foo retry_st3).

Definition ok_world : world :=
  scripted argv_script_foo [prints "Initialized script" 0].

Definition ok_st0 : state := State [Line []] 0 [].

Definition ok_st1 : state := snd (@main_cmd ascii_lib ok_world ok_st0).

Definition ok_st2 : state := snd (cmd_run ok_world cmd_script_foo ok_st1).

(** A child whose output arrives in two chunks, the second one holding a
    two-byte character. *)
Definition two_chunks : child :=
  Child [ReadData (list_byte_of_string "caf"); ReadData [xc3; xa9];
         ReadOSError] 0.

Definition scenario_match : text :=
  txt "No interpreter found for Python 3.12 ... A managed Python download is available ... use `uv python install 3.12`".

Definition scenario_mismatch : text :=
  txt "No interpreter found for Python 3.12 ... A managed Python download is available for 3.13 ... use `uv python install 3.13`".

(** ** Vocabulary of the further properties *)


(** Every command a computation spawns satisfies [P]. *)
Definition spawns_only {A} (c : M A) (P : text -> Prop) : Prop :=
  forall st, exists cmds,
    spawns (trace (snd (c st))) = spawns (trace st) ++ cmds
    /\ Forall P cmds.

(** The test of [valid_proj_type]: a short code or a long name. *)
Definition type_ok (t : text) : bool :=
  dict_has PROJ_TYPES t || text_in t (map snd PROJ_TYPES).

(** The messages of [parse_args] and of the validators, as [perr] passes
    them to [rich.print]. *)
Definition missing_args_msg : text :=
  txt "[red]error:[/] " +++ txt "missing args: project type & project name".

Definition too_many_args_msg : text :=
  txt "[red]error:[/] "
  +++ txt "too many args: give only project type & project name".

Definition invalid_type_msg (t : text) : text :=
  txt "[red]error:[/] "
  +++ (txt "invalid project type: [yellow]" +++ t
       +++ txt "[/] (see [cyan]uvi --help[/])").

Definition invalid_name_msg (n : text) : text :=
  txt "[red]error:[/] " +++ (txt "invalid project name: " +++ n).


(** What the handler of [main] prints on Ctrl-C. *)
Definition stopped_msg : text := txt "
[red]stopped[/]".

(** The argument vector holds a help or a version flag. *)
Definition has_flag (args : list text) : bool :=
  text_in (txt "-h") args || text_in (txt "--help") args
  || text_in (txt "-v") args || text_in (txt "--version") args.

(** The part of the command [main] assembles for every project type. *)
Definition init_cmd (pn pt ver : text) : text :=
  txt "uv init " +++ pn +++ txt " --" +++ pt +++ txt " --python " +++ ver.

(** The prompt of [get_desc], as passed to [input]. *)
Definition desc_prompt : text :=
  txt "[green]" +++ txt "desc" +++ txt "[/] > ".



(** The marker [yn_inp] puts before the prompt after a rejected answer. *)
Definition YN_MARKER : text := txt "[red]! [/]".

(** The prompt of [yn_inp], as passed to [input], for a value of
    [err_str]. *)
Definition yn_prompt (prompt err_str : text) : text :=
  txt "[green]" +++ (err_str +++ prompt) +++ txt " [cyan](" +++ txt "y/n"
      +++ txt ")" +++ txt "[/] > ".

(** The prompts of a run of the loop of [yn_inp] that rejects [n] answers:
    the first with the current [err_str], the others with the marker. *)
Definition yn_prompts (prompt err_str : text) (n : nat) : list event :=
  EPrompt (yn_prompt prompt err_str)
  :: repeat (EPrompt (yn_prompt prompt YN_MARKER)) n.

(** What ends the read loop of [cmd_run] normally: end of file, an empty
    read or an [OSError]. *)
Definition ends_output (rs : list read_result) : Prop :=
  match rs with
  | [] | ReadData [] :: _ | ReadOSError :: _ => True
  | _ => False
  end.

(** A Unicode scalar value: a code point up to U+10FFFF that is not a
    surrogate. *)
Definition scalar_value (c : codepoint) : Prop :=
  (c < 1114112 /\ ~ (55296 <= c <= 57343))%N.

Section FurtherVocabulary.
Context `{PyLib}.

(** How [perr] followed by [sys.exit(2)] ends: the message is printed and
    the program exits with code 2, unless the message does not render,
    and then [MarkupError] is raised with nothing printed. *)
Definition usage_exit {A} (msg : text) : state -> outcome A * state :=
  fun st =>
    if markup_ok msg
    then (Raise (SystemExit 2), log (EPrint Stderr msg) st)
    else (Raise MarkupError, st).


(** How [yn_inp] reads an answer: yes, no, or neither. *)
Definition yn_answer (l : text) : option bool :=
  if text_in (normalize l) [txt "yes"; txt "y"] then Some true
  else if text_in (normalize l) [txt "no"; txt "n"] then Some false
  else None.

(** The loop of [yn_inp], entered with a value of [err_str]. *)
Definition yn_loop (prompt err_str : text) : M bool :=
  fun st =>
    while_true (S (List.length (stdin st))) (yn_inp_body prompt) err_str st.

End FurtherVocabulary.

(** ** Further sample invocations *)

Definition argv_app_demo : list text := [txt "uvi.py"; txt "a"; txt "demo"].

Definition cmd_app_demo : text :=
  txt "uv init demo --app --python 3.12 --description 'A demo' --vcs 'git' --no-readme".

Definition app_st0 : state :=
  State [Line (txt "3.12"); Line (txt " A demo "); Line (txt "Y");
         Line (txt "no")] 0 [].

Definition app_st1 : state :=
  snd (@main_cmd ascii_lib (scripted argv_app_demo []) app_st0).

Definition stopped_world : world :=
  scripted argv_script_foo
           [Child [ReadData (list_byte_of_string "Initialized");
                   ReadInterrupt] 0].

Definition stopped_st1 : state :=
  snd (@main_cmd ascii_lib stopped_world ok_st0).

Definition network_world : world :=
  scripted argv_script_foo [prints "error: network unreachable" 1].

Definition network_st1 : state :=
  snd (@main_cmd ascii_lib network_world ok_st0).

Definition network_st2 : state :=
  snd (cmd_run network_world cmd_script_foo network_st1).

Definition fixed_world : world :=
  scripted argv_script_foo
           [fails_missing 2; prints "installed" 0;
            prints "Initialized script" 0].

Definition fixed_st1 : state :=
  snd (@main_cmd ascii_lib fixed_world retry_st0).

Definition fixed_st2 : state :=
  snd (cmd_run fixed_world cmd_script_foo fixed_st1).

Definition fixed_st3 : state :=
  snd (@yn_inp ascii_lib (install_prompt (txt "3.13")) fixed_st2).

Definition fixed_st4 : state :=
  snd (cmd_run fixed_world (install_cmd (txt "3.13"))
               (log (EPrint Stderr (installing_msg (txt "3.13")))
                    fixed_st3)).

Definition fixed_st5 : state :=
  snd (cmd_run fixed_world cmd_script_foo
               (log (EPrint Stderr retrying_msg) fixed_st4)).

(** A child whose second read is empty: what it writes later is not
    read. *)
Definition early_end : child :=
  Child [ReadData (list_byte_of_string "ab"); ReadData [];
         ReadData (list_byte_of_string "cd")] 7.

(** * Properties *)

(** ** Text *)

Lemma text_eqb_eq (a b : text) : text_eqb a b = true <-> a = b.
Proof.
  revert b; induction a as [|x a IH]; intros [|y b]; simpl;
    try (split; [discriminate | discriminate]); try tauto.
  rewrite andb_true_iff, N.eqb_eq, IH.
  split; [intros [-> ->]; reflexivity | intros E; injection E; auto].
Qed.

Lemma text_eqb_refl (a : text) : text_eqb a a = true.
Proof. apply text_eqb_eq; reflexivity. Qed.

Lemma text_in_In (x : text) (xs : list text) :
  text_in x xs = true <-> In x xs.
Proof.
  unfold text_in. rewrite existsb_exists. split.
  - intros [y [Hy E]]. apply text_eqb_eq in E. subst; assumption.
  - intros Hx. exists x. split; [assumption | apply text_eqb_refl].
Qed.

Lemma strip_prefix_Some (p s r : text) :
  strip_prefix p s = Some r <-> s = p +++ r.
Proof.
  revert s; induction p as [|x p IH]; intros s; simpl.
  - split; [intros E; injection E; auto | intros ->; reflexivity].
  - destruct s as [|y s]; [split; discriminate|].
    destruct (N.eqb_spec x y) as [->|Hne].
    + rewrite IH. split; [intros ->; reflexivity | intros E; injection E; auto].
    + split; [discriminate | intros E; injection E; intros; subst; tauto].
Qed.

Lemma strip_prefix_app (p r : text) : strip_prefix p (p +++ r) = Some r.
Proof. apply strip_prefix_Some; reflexivity. Qed.

Lemma spawns_app (a b : list event) : spawns (a ++ b) = spawns a ++ spawns b.
Proof.
  induction a as [|e a IH]; simpl; [reflexivity|].
  destruct e; simpl; rewrite IH; reflexivity.
Qed.

Lemma written_app (a b : list event) :
  written (a ++ b) = written a ++ written b.
Proof.
  induction a as [|e a IH]; simpl; [reflexivity|].
  destruct e; simpl; rewrite IH; reflexivity.
Qed.

Lemma spawns_writes (chunks : list bytes) : spawns (map EWrite chunks) = [].
Proof. induction chunks; simpl; auto. Qed.

Lemma written_writes (chunks : list bytes) :
  written (map EWrite chunks) = chunks.
Proof. induction chunks; simpl; congruence. Qed.

(** ** Markup that renders *)

Section MarkupFacts.
Context `{PyLib}.

Lemma closes_no_parameters (n : text) : closes (Tag n None) = true.
Proof.
  unfold closes; simpl. destruct n as [|c n]; [reflexivity|].
  destruct (c =? 64)%N; reflexivity.
Qed.

Lemma balanced_renders tags : forall names,
  balanced tags names = true ->
  render_tags tags (map (fun n => Tag (style_normalize n) None) names)
  = true.
Proof.
  induction tags as [|t tags IH]; intros names; [reflexivity|].
  destruct t as [nm [ps|]]; [discriminate|].
  destruct nm as [|c nm]; cbn [balanced render_tags tag_name tag_parameters].
  - intros Hb. apply (IH ([] :: names)). exact Hb.
  - destruct (c =? 47)%N.
    + destruct names as [|top below]; [discriminate|].
      intros Hb; apply andb_true_iff in Hb as [Hn Hb].
      cbn [map]. destruct (strip nm) as [|x sn].
      * rewrite closes_no_parameters. apply IH; exact Hb.
      * apply text_eqb_eq in Hn. subst top. cbn [pop_style tag_name].
        rewrite text_eqb_refl, closes_no_parameters. apply IH; exact Hb.
    + intros Hb. apply (IH ((c :: nm) :: names)); exact Hb.
Qed.

Lemma balanced_markup_ok (m : text) :
  balanced (parse_tags m 0) [] = true -> markup_ok m = true.
Proof. intros Hb. apply (balanced_renders _ [] Hb). Qed.

Lemma parse_tags_plain (v s : text) :
  forallb plain v = true -> parse_tags (v ++ s) 0 = parse_tags s 0.
Proof.
  induction v as [|c v IH]; [reflexivity|]. cbn [forallb app].
  intros Hp; apply andb_true_iff in Hp as [Hc Hv].
  unfold plain in Hc. apply negb_true_iff, orb_false_iff in Hc as [H1 H2].
  cbn [parse_tags]. unfold re_tags_match. cbn [backslashes].
  rewrite H2, H1. apply IH; exact Hv.
Qed.

Lemma digit_plain (c : codepoint) : re_digit c = true -> plain c = true.
Proof.
  intros Hd. unfold plain.
  destruct (N.eqb_spec c 91) as [->|_];
    [rewrite re_digit_ascii in Hd by reflexivity; discriminate|].
  destruct (N.eqb_spec c 92) as [->|_];
    [rewrite re_digit_ascii in Hd by reflexivity; discriminate|].
  reflexivity.
Qed.

Lemma version_plain (v : text) : is_version v -> forallb plain v = true.
Proof.
  intros [a [b [-> [_ [_ [Ha Hb]]]]]]. rewrite !forallb_app.
  assert (forall w, Forall (fun c => re_digit c = true) w ->
                    forallb plain w = true) as Hw.
  { intros w Hf. apply forallb_forall. intros c Hc.
    apply digit_plain. rewrite Forall_forall in Hf. auto. }
  rewrite (Hw a Ha), (Hw b Hb). reflexivity.
Qed.

Lemma installing_markup_ok (v : text) :
  is_version v -> markup_ok (installing_msg v) = true.
Proof.
  intros Hv. apply balanced_markup_ok. unfold installing_msg.
  cbn. rewrite (parse_tags_plain _ _ (version_plain Hv)). reflexivity.
Qed.

Lemma failed_markup_ok (v : text) :
  is_version v -> markup_ok (failed_msg v) = true.
Proof.
  intros Hv. apply balanced_markup_ok. unfold failed_msg.
  rewrite <- (app_nil_r v). cbn.
  rewrite (parse_tags_plain _ _ (version_plain Hv)). reflexivity.
Qed.

Lemma retrying_markup_ok : markup_ok retrying_msg = true.
Proof. apply balanced_markup_ok. reflexivity. Qed.

Lemma help_markup_ok : markup_ok HELP = true.
Proof. apply balanced_markup_ok. vm_compute. reflexivity. Qed.

Lemma version_msg_markup_ok : markup_ok version_msg = true.
Proof. apply balanced_markup_ok. reflexivity. Qed.

Lemma missing_name_markup_ok : markup_ok missing_name_msg = true.
Proof. apply balanced_markup_ok. reflexivity. Qed.

Lemma missing_args_markup_ok : markup_ok missing_args_msg = true.
Proof. apply balanced_markup_ok. reflexivity. Qed.

Lemma too_many_args_markup_ok : markup_ok too_many_args_msg = true.
Proof. apply balanced_markup_ok. reflexivity. Qed.

Lemma stopped_markup_ok : markup_ok stopped_msg = true.
Proof. apply balanced_markup_ok. reflexivity. Qed.

End MarkupFacts.

(** ** The monad *)

Lemma bind_Ret {A B} (c : M A) (k : A -> M B) st a st' :
  c st = (Ret a, st') -> bind c k st = k a st'.
Proof. unfold bind; intros ->; reflexivity. Qed.

Lemma bind_Raise {A B} (c : M A) (k : A -> M B) st e st' :
  c st = (Raise e, st') -> bind c k st = (Raise e, st').
Proof. unfold bind; intros ->; reflexivity. Qed.

Lemma quiet_ret {A} (a : A) : quiet (ret a).
Proof. intros st; split; reflexivity. Qed.

Lemma quiet_raise {A} (e : exn) : quiet (@raise A e).
Proof. intros st; split; reflexivity. Qed.

Lemma quiet_bind {A B} (c : M A) (k : A -> M B) :
  quiet c -> (forall a, quiet (k a)) -> quiet (bind c k).
Proof.
  intros Hc Hk st. unfold bind. specialize (Hc st).
  destruct (c st) as [[a|e] st']; simpl in *; [|assumption].
  destruct (Hk a st') as [H1 H2]. destruct Hc as [H3 H4].
  split; congruence.
Qed.

Lemma quiet_rprint `{PyLib} f m : quiet (rprint f m).
Proof.
  intros st; unfold rprint, log. destruct (markup_ok m); simpl.
  - rewrite spawns_app; simpl. rewrite app_nil_r; split; reflexivity.
  - split; reflexivity.
Qed.

Lemma quiet_input p : quiet (input p).
Proof.
  intros st; unfold input.
  destruct (stdin st) as [|[l|] more]; simpl; rewrite spawns_app; simpl;
    rewrite app_nil_r; split; reflexivity.
Qed.

Lemma quiet_while {S A} (body : S -> M (A + S)) :
  (forall s, quiet (body s)) ->
  forall fuel s, quiet (while_true fuel body s).
Proof.
  intros Hb fuel; induction fuel as [|fuel IH]; intros s; simpl.
  - apply quiet_raise.
  - apply quiet_bind; [apply Hb|]. intros [a|s']; [apply quiet_ret | apply IH].
Qed.

Lemma unstuck_ret {A} (a : A) : unstuck (ret a).
Proof. intros st; simpl; discriminate. Qed.

Lemma unstuck_raise {A} (e : exn) : e <> Stuck -> unstuck (@raise A e).
Proof. intros He st; simpl; congruence. Qed.

Lemma unstuck_bind {A B} (c : M A) (k : A -> M B) :
  unstuck c -> (forall a, unstuck (k a)) -> unstuck (bind c k).
Proof.
  intros Hc Hk st. unfold bind. specialize (Hc st).
  destruct (c st) as [[a|e] st']; simpl in *; [apply Hk|].
  intros E; apply Hc; injection E as ->; reflexivity.
Qed.

Lemma unstuck_rprint `{PyLib} f m : unstuck (rprint f m).
Proof. intros st; unfold rprint. destruct (markup_ok m); discriminate. Qed.

Lemma rprint_ok `{PyLib} f m st :
  markup_ok m = true -> rprint f m st = (Ret tt, log (EPrint f m) st).
Proof. intros E. unfold rprint. rewrite E. reflexivity. Qed.

Lemma rprint_bad `{PyLib} f m st :
  markup_ok m = false -> rprint f m st = (Raise MarkupError, st).
Proof. intros E. unfold rprint. rewrite E. reflexivity. Qed.

Lemma unstuck_input p : unstuck (input p).
Proof.
  intros st; unfold input.
  destruct (stdin st) as [|[l|] more]; simpl; discriminate.
Qed.

(** A loop whose every further round has read a line ends before its
    fuel does. *)
Lemma unstuck_while {S A} (body : S -> M (A + S)) :
  (forall s, unstuck (body s)) ->
  (forall s st s' st', body s st = (Ret (inr s'), st') ->
                       List.length (stdin st') < List.length (stdin st)) ->
  forall fuel s st,
    List.length (stdin st) < fuel ->
    fst (while_true fuel body s st) <> Raise Stuck.
Proof.
  intros Hu Hc fuel; induction fuel as [|fuel IH]; intros s st Hlt; [lia|].
  simpl. unfold bind. specialize (Hu s st). specialize (Hc s st).
  destruct (body s st) as [[[a|s']|e] st']; simpl in *; [discriminate | |].
  - apply IH. specialize (Hc s' st' eq_refl). lia.
  - intros E; apply Hu; injection E as ->; reflexivity.
Qed.

Create HintDb quiet.
#[export] Hint Resolve quiet_ret quiet_raise quiet_rprint quiet_input
  : quiet.
Create HintDb unstuck.
#[export] Hint Resolve unstuck_ret unstuck_rprint unstuck_input : unstuck.

Ltac quiet_step :=
  first [ apply quiet_bind; [|intro]
        | apply quiet_ret | apply quiet_raise | apply quiet_rprint
        | apply quiet_input
        | match goal with |- quiet (if ?b then _ else _) => destruct b end
        | match goal with |- quiet (match ?o with _ => _ end) => destruct o end ].

Ltac unstuck_step :=
  first [ apply unstuck_bind; [|intro]
        | apply unstuck_ret | apply unstuck_rprint | apply unstuck_input
        | apply unstuck_raise; discriminate
        | match goal with |- unstuck (if ?b then _ else _) => destruct b end
        | match goal with
          | |- unstuck (match ?o with _ => _ end) => destruct o
          end ].

Lemma join_empty_sep (parts : list text) : join [] parts = List.concat parts.
Proof.
  induction parts as [|p [|q ps] IH]; simpl in *.
  - reflexivity.
  - rewrite app_nil_r; reflexivity.
  - rewrite IH; reflexivity.
Qed.

Lemma state_eta (st : state) :
  State (stdin st) (spawned st) (trace st) = st.
Proof. destruct st; reflexivity. Qed.

Section ProgramFacts.
Context `{PyLib}.
Variable W : world.

(** ** Prompts *)

Lemma input_Ret p st l st' :
  input p st = (Ret l, st') ->
  stdin st = Line l :: stdin st'
  /\ spawned st' = spawned st
  /\ trace st' = trace st ++ [EPrompt p].
Proof.
  unfold input. destruct (stdin st) as [|[l0|] more]; try discriminate.
  intros E; injection E as <- <-; simpl; auto.
Qed.

Lemma inp_Ret p sup st a st' :
  inp p sup st = (Ret a, st') ->
  exists l, a = strip l /\ stdin st = Line l :: stdin st'.
Proof.
  unfold inp, bind.
  destruct (input _ st) as [[l|e] st1] eqn:E; [|discriminate].
  intros R; injection R as <- <-.
  apply input_Ret in E. exists l; tauto.
Qed.

Lemma inp_Line p sup st l more :
  stdin st = Line l :: more ->
  inp p sup st =
  (Ret (strip l),
   State more (spawned st)
         (trace st ++ [EPrompt (txt "[green]" +++ p
              +++ match sup with
                  | Some s => txt " [cyan](" +++ s +++ txt ")"
                  | None => []
                  end +++ txt "[/] > ")])).
Proof. intros E. unfold inp, bind, input. rewrite E. reflexivity. Qed.

Lemma quiet_inp p sup : quiet (inp p sup).
Proof. unfold inp; repeat quiet_step. Qed.

Lemma unstuck_inp p sup : unstuck (inp p sup).
Proof. unfold inp; repeat unstuck_step. Qed.

Lemma quiet_perr m : quiet (perr m).
Proof. apply quiet_rprint. Qed.

Lemma unstuck_perr m : unstuck (perr m).
Proof. apply unstuck_rprint. Qed.

Lemma quiet_yn_inp_body p e : quiet (yn_inp_body p e).
Proof.
  unfold yn_inp_body. apply quiet_bind; [apply quiet_inp|intro].
  repeat quiet_step.
Qed.

Lemma unstuck_yn_inp_body p e : unstuck (yn_inp_body p e).
Proof.
  unfold yn_inp_body. apply unstuck_bind; [apply unstuck_inp|intro].
  repeat unstuck_step.
Qed.

Lemma yn_inp_body_reads p e st s' st' :
  yn_inp_body p e st = (Ret (inr s'), st') ->
  List.length (stdin st') < List.length (stdin st).
Proof.
  unfold yn_inp_body, bind.
  destruct (inp _ _ st) as [[a|x] st1] eqn:E; [|discriminate].
  apply inp_Ret in E. destruct E as [l [_ E]].
  destruct (text_in _ _); [discriminate|].
  destruct (text_in _ _); [discriminate|].
  intros R; injection R as _ <-. rewrite E; simpl; lia.
Qed.

Lemma quiet_yn_inp p : quiet (yn_inp p).
Proof.
  intros st. unfold yn_inp.
  apply (quiet_while (yn_inp_body p) (quiet_yn_inp_body p)).
Qed.

Lemma unstuck_yn_inp p : unstuck (yn_inp p).
Proof.
  intros st. unfold yn_inp.
  apply (unstuck_while (yn_inp_body p) (unstuck_yn_inp_body p)
                       (@yn_inp_body_reads p)).
  lia.
Qed.

Lemma quiet_py3_support i : quiet (py3_support i).
Proof. unfold py3_support; repeat quiet_step. Qed.

Lemma unstuck_py3_support i : unstuck (py3_support i).
Proof. unfold py3_support; repeat unstuck_step. Qed.

Lemma quiet_get_ver_body u : quiet (get_ver_body u).
Proof.
  unfold get_ver_body. apply quiet_bind; [apply quiet_inp|intro].
  repeat first [apply quiet_py3_support | apply quiet_perr | quiet_step].
Qed.

Lemma unstuck_get_ver_body u : unstuck (get_ver_body u).
Proof.
  unfold get_ver_body. apply unstuck_bind; [apply unstuck_inp|intro].
  repeat first [apply unstuck_py3_support | apply unstuck_perr
               | unstuck_step].
Qed.

Lemma get_ver_body_reads u st s' st' :
  get_ver_body u st = (Ret (inr s'), st') ->
  List.length (stdin st') < List.length (stdin st).
Proof.
  unfold get_ver_body, bind.
  destruct (inp _ _ st) as [[a|x] st1] eqn:E; [|discriminate].
  apply inp_Ret in E. destruct E as [l [_ E]]. rewrite E.
  destruct (text_eqb _ _).
  { destruct (py3_support _ st1) as [[d|x] st2]; discriminate. }
  destruct (text_in _ _); [discriminate|].
  unfold py3_support, PY3_SUPPORT; simpl. unfold ret, perr, rprint; simpl.
  destruct (markup_ok _); [|discriminate].
  intros R; injection R as _ <-. simpl; lia.
Qed.

Lemma quiet_get_ver : quiet get_ver.
Proof.
  intros st. unfold get_ver.
  apply (quiet_while get_ver_body quiet_get_ver_body).
Qed.

Lemma unstuck_get_ver : unstuck get_ver.
Proof.
  intros st. unfold get_ver.
  apply (unstuck_while get_ver_body unstuck_get_ver_body get_ver_body_reads).
  lia.
Qed.

(** ** The PTY executor *)

Lemma read_loop_spec rs : forall outbuf st,
  read_loop rs outbuf st =
  ((if interrupted rs then Raise KeyboardInterrupt
    else Ret (outbuf ++ map decode_replace (relayed rs))),
   State (stdin st) (spawned st) (trace st ++ map EWrite (relayed rs))).
Proof.
  induction rs as [|[[|b data]| |] rs IH]; intros outbuf st; simpl;
    try (unfold ret, raise; rewrite !app_nil_r, state_eta; reflexivity).
  unfold bind, log; simpl. rewrite IH; simpl.
  rewrite <- !app_assoc; reflexivity.
Qed.

Lemma cmd_run_spec cmd st :
  let proc := popen W (spawned st) cmd in
  let chunks := relayed (reads proc) in
  cmd_run W cmd st =
  ((if interrupted (reads proc) then Raise KeyboardInterrupt
    else Ret (returncode proc, List.concat (map decode_replace chunks))),
   State (stdin st) (S (spawned st))
         (trace st ++ ESpawn cmd :: map EWrite chunks)).
Proof.
  simpl. unfold cmd_run, bind. rewrite read_loop_spec; simpl.
  rewrite <- app_assoc; simpl.
  destruct (interrupted _); [reflexivity|].
  unfold ret. rewrite join_empty_sep. reflexivity.
Qed.

Lemma cmd_run_spawns cmd st :
  spawns (trace (snd (cmd_run W cmd st))) = spawns (trace st) ++ [cmd].
Proof.
  rewrite cmd_run_spec; simpl. rewrite spawns_app; simpl.
  rewrite spawns_writes; reflexivity.
Qed.

Lemma unstuck_cmd_run cmd : unstuck (cmd_run W cmd).
Proof.
  intros st. rewrite cmd_run_spec; simpl.
  destruct (interrupted _); discriminate.
Qed.

End ProgramFacts.

Section Orchestration.
Context `{PyLib}.
Variable W : world.

(** ** Argument parsing and prompts spawn nothing and always end *)

Lemma quiet_sys_argv i : quiet (sys_argv W i).
Proof. unfold sys_argv; repeat quiet_step. Qed.

Lemma unstuck_sys_argv i : unstuck (sys_argv W i).
Proof. unfold sys_argv; repeat unstuck_step. Qed.

Lemma quiet_valid_proj_type t : quiet (valid_proj_type t).
Proof. unfold valid_proj_type, perr; repeat quiet_step. Qed.

Lemma unstuck_valid_proj_type t : unstuck (valid_proj_type t).
Proof. unfold valid_proj_type, perr; repeat unstuck_step. Qed.

Lemma quiet_valid_proj_name n : quiet (valid_proj_name n).
Proof. unfold valid_proj_name, perr; repeat quiet_step. Qed.

Lemma unstuck_valid_proj_name n : unstuck (valid_proj_name n).
Proof. unfold valid_proj_name, perr; repeat unstuck_step. Qed.

Lemma quiet_parse_args : quiet (parse_args W).
Proof.
  unfold parse_args, sys_exit, perr.
  repeat first [ apply quiet_sys_argv | apply quiet_valid_proj_type
               | apply quiet_valid_proj_name | quiet_step ].
Qed.

Lemma unstuck_parse_args : unstuck (parse_args W).
Proof.
  unfold parse_args, sys_exit, perr.
  repeat first [ apply unstuck_sys_argv | apply unstuck_valid_proj_type
               | apply unstuck_valid_proj_name | unstuck_step ].
Qed.

Lemma quiet_main_cmd : quiet (main_cmd W).
Proof.
  unfold main_cmd, get_desc, get_vcs, get_rm.
  repeat first [ apply quiet_parse_args | apply quiet_get_ver
               | apply quiet_inp | apply quiet_yn_inp | quiet_step ].
Qed.

Lemma unstuck_main_cmd : unstuck (main_cmd W).
Proof.
  unfold main_cmd, get_desc, get_vcs, get_rm.
  repeat first [ apply unstuck_parse_args | apply unstuck_get_ver
               | apply unstuck_inp | apply unstuck_yn_inp | unstuck_step ].
Qed.

(** ** The remediation step, by the answer to the consent prompt *)

Lemma install_declined v st st1 :
  yn_inp (install_prompt v) st = (Ret false, st1) ->
  install_missing_ver W v st = (Ret tt, st1).
Proof.
  intros E. unfold install_missing_ver.
  rewrite (bind_Ret _ _ _ E). reflexivity.
Qed.

Lemma install_raised v st e st1 :
  yn_inp (install_prompt v) st = (Raise e, st1) ->
  install_missing_ver W v st = (Raise e, st1).
Proof.
  intros E. unfold install_missing_ver.
  rewrite (bind_Raise _ _ _ E). reflexivity.
Qed.

Lemma install_accepted v st st1 :
  yn_inp (install_prompt v) st = (Ret true, st1) ->
  install_missing_ver W v st =
  if markup_ok (installing_msg v) then
    match cmd_run W (install_cmd v)
                  (log (EPrint Stderr (installing_msg v)) st1)
    with
    | (Ret (code, _), st3) =>
        if (code =? 0)%Z
        then (Ret tt, log (EPrint Stderr retrying_msg) st3)
        else if markup_ok (failed_msg v)
             then (Raise (SystemExit code),
                   log (EPrint Stderr (failed_msg v)) st3)
             else (Raise MarkupError, st3)
    | (Raise e, st3) => (Raise e, st3)
    end
  else (Raise MarkupError, st1).
Proof.
  intros E. unfold install_missing_ver.
  rewrite (bind_Ret _ _ _ E). unfold bind at 1. unfold rprint at 1.
  fold (install_cmd v). fold (installing_msg v).
  destruct (markup_ok (installing_msg v)); [|reflexivity].
  unfold bind at 1.
  destruct (cmd_run W (install_cmd v) _) as [[[code out]|e] st3];
    [|reflexivity].
  simpl fst. unfold bind at 1. destruct (code =? 0)%Z; simpl negb; cbv iota.
  - unfold ret, rprint. fold retrying_msg. rewrite retrying_markup_ok.
    reflexivity.
  - unfold bind at 1. unfold perr, rprint at 1. fold (failed_msg v).
    destruct (markup_ok (failed_msg v)); reflexivity.
Qed.

(** When the version is one the classifier can return, the messages of the
    remediation render. *)
Lemma install_accepted_version v st st1 :
  is_version v ->
  yn_inp (install_prompt v) st = (Ret true, st1) ->
  install_missing_ver W v st =
  match cmd_run W (install_cmd v) (log (EPrint Stderr (installing_msg v)) st1)
  with
  | (Ret (code, _), st3) =>
      if (code =? 0)%Z
      then (Ret tt, log (EPrint Stderr retrying_msg) st3)
      else (Raise (SystemExit code), log (EPrint Stderr (failed_msg v)) st3)
  | (Raise e, st3) => (Raise e, st3)
  end.
Proof.
  intros Hv E. rewrite (@install_accepted v _ _ E).
  rewrite (installing_markup_ok Hv), (failed_markup_ok Hv). reflexivity.
Qed.

Lemma install_spawns v st :
  spawns (trace (snd (install_missing_ver W v st))) = spawns (trace st)
  \/ spawns (trace (snd (install_missing_ver W v st)))
     = spawns (trace st) ++ [install_cmd v].
Proof.
  pose proof (quiet_yn_inp (install_prompt v) st) as [Hq _].
  destruct (yn_inp (install_prompt v) st) as [[[|]|e] st1] eqn:E;
    simpl in Hq.
  - rewrite (@install_accepted v _ _ E).
    destruct (markup_ok (installing_msg v)); [|left; assumption].
    right.
    pose proof (cmd_run_spawns W (install_cmd v)
                  (log (EPrint Stderr (installing_msg v)) st1)) as Hs.
    destruct (cmd_run W (install_cmd v) _) as [[[code out]|x] st3];
      simpl in Hs.
    + destruct (code =? 0)%Z; [|destruct (markup_ok (failed_msg v))];
        simpl; rewrite ?spawns_app, Hs, spawns_app; simpl;
        rewrite ?app_nil_r, Hq; reflexivity.
    + simpl. rewrite Hs, spawns_app; simpl. rewrite app_nil_r, Hq.
      reflexivity.
  - left. rewrite (@install_declined v _ _ E). assumption.
  - left. rewrite (@install_raised v _ _ _ E). assumption.
Qed.

Lemma unstuck_install v : unstuck (install_missing_ver W v).
Proof.
  intros st.
  pose proof (unstuck_yn_inp (install_prompt v) st) as Hu.
  destruct (yn_inp (install_prompt v) st) as [[[|]|e] st1] eqn:E;
    simpl in Hu.
  - rewrite (@install_accepted v _ _ E).
    destruct (markup_ok (installing_msg v)); [|simpl; discriminate].
    pose proof (unstuck_cmd_run W (install_cmd v)
                  (log (EPrint Stderr (installing_msg v)) st1)) as Hc.
    destruct (cmd_run W (install_cmd v) _) as [[[code out]|x] st3];
      simpl in Hc.
    + destruct (code =? 0)%Z; [|destruct (markup_ok (failed_msg v))];
        simpl; discriminate.
    + simpl. intros R; apply Hc; injection R as ->; reflexivity.
  - rewrite (@install_declined v _ _ E). simpl; discriminate.
  - rewrite (@install_raised v _ _ _ E). simpl.
    intros R; apply Hu; injection R as ->; reflexivity.
Qed.

(** ** [main], by what the first run of the command returns *)

Lemma truthy_Some (o : option text) :
  truthy o = true -> exists v, o = Some v.
Proof. destruct o as [[|c v]|]; simpl; try discriminate; eauto. Qed.

Lemma main_run_interrupted cmd st e st1 :
  cmd_run W cmd st = (Raise e, st1) ->
  main_run W cmd st = (Raise e, st1).
Proof. intros E. unfold main_run. rewrite (bind_Raise _ _ _ E). reflexivity. Qed.

Lemma main_run_unrecovered cmd st code out st1 :
  cmd_run W cmd st = (Ret (code, out), st1) ->
  (code =? 0)%Z || negb (truthy (detect_missing_ver out)) = true ->
  main_run W cmd st = (Raise (SystemExit code), st1).
Proof.
  intros E Hc. unfold main_run. rewrite (bind_Ret _ _ _ E). simpl fst.
  simpl snd. unfold bind, sys_exit, raise, ret.
  destruct (code =? 0)%Z; simpl in *; [reflexivity|].
  destruct (truthy _); [discriminate | reflexivity].
Qed.

Lemma main_run_recovering cmd st code out st1 v :
  cmd_run W cmd st = (Ret (code, out), st1) ->
  code <> 0%Z ->
  detect_missing_ver out = Some v ->
  truthy (Some v) = true ->
  main_run W cmd st =
  match install_missing_ver W v st1 with
  | (Ret _, st2) =>
      match cmd_run W cmd st2 with
      | (Ret (code', _), st3) => (Raise (SystemExit code'), st3)
      | (Raise e, st3) => (Raise e, st3)
      end
  | (Raise e, st2) => (Raise e, st2)
  end.
Proof.
  intros E Hc Hd Ht. unfold main_run. rewrite (bind_Ret _ _ _ E).
  simpl fst; simpl snd. apply Z.eqb_neq in Hc. rewrite Hc, Hd, Ht. simpl negb.
  cbv iota. unfold bind at 1. unfold bind at 1.
  destruct (install_missing_ver W v st1) as [[[]|e] st2]; [|reflexivity].
  unfold bind at 1.
  destruct (cmd_run W cmd st2) as [[[code' out']|e] st3]; reflexivity.
Qed.

Lemma main_body_exit st code st' :
  bind (main_cmd W) (main_run W) st = (Raise (SystemExit code), st') ->
  main W st = (Raise (SystemExit code), st').
Proof.
  intros E. unfold main, try_except_KeyboardInterrupt.
  change (fun cmd : text => main_run W cmd) with (main_run W).
  rewrite E. reflexivity.
Qed.

End Orchestration.

(** ** The failure classifier *)

Section Classifier.
Context `{PyLib}.

Lemma many_spec a s m r :
  In (m, r) (many a s)
  <-> s = m +++ r /\ Forall (fun c => atom_ok a c = true) m.
Proof.
  revert m r; induction s as [|c s IH]; intros m r; simpl.
  - split.
    + intros [E|[]]; injection E as <- <-; auto.
    + intros [E _]. symmetry in E. apply app_eq_nil in E as [-> ->]; auto.
  - destruct (atom_ok a c) eqn:Hc.
    + rewrite in_app_iff, in_map_iff; simpl. split.
      * intros [[[m' r'] [E Hin]]|[E|[]]].
        -- injection E as <- <-. apply IH in Hin as [-> Hf]. simpl; auto.
        -- injection E as <- <-; auto.
      * intros [E Hf]. destruct m as [|d m]; simpl in E.
        -- right; left; subst; reflexivity.
        -- injection E as <- ->. left. exists (m, r); split; [reflexivity|].
           apply IH; split; [reflexivity|]. inversion Hf; assumption.
    + simpl; split.
      * intros [E|[]]; injection E as <- <-; auto.
      * intros [E Hf]. destruct m as [|d m]; simpl in E.
        -- left; subst; reflexivity.
        -- injection E as <- ->. inversion Hf; congruence.
Qed.

(** The matcher enumerates exactly the matches at the start of the
    subject. *)
Lemma exec_spec r : forall g s m g' t,
  In (Result m g' t) (exec r g s) <-> s = m +++ t /\ Matches r g m g'.
Proof.
  induction r as [p|a|a|r1 IH1 r2 IH2|r IH|]; intros g s m g' t; simpl.
  - destruct (strip_prefix p s) as [s'|] eqn:E; simpl.
    + apply strip_prefix_Some in E. split.
      * intros [R|[]]; injection R as <- <- <-. split; [assumption|constructor].
      * intros [Hs Hm]. inversion Hm; subst. left.
        apply app_inv_head in Hs. subst; reflexivity.
    + split; [tauto|]. intros [Hs Hm]. inversion Hm; subst.
      rewrite strip_prefix_app in E; discriminate.
  - rewrite in_map_iff. split.
    + intros [[m' t'] [R Hin]]; simpl in R; injection R as <- <- <-.
      apply many_spec in Hin as [-> Hf]. split; [reflexivity|constructor; auto].
    + intros [-> Hm]. inversion Hm; subst. exists (m, t); split; [reflexivity|].
      apply many_spec; auto.
  - rewrite in_map_iff. split.
    + intros [[m' t'] [R Hin]]; simpl in R; injection R as <- <- <-.
      apply filter_In in Hin as [Hin Hne]. apply many_spec in Hin as [-> Hf].
      split; [reflexivity|]. constructor; [|assumption].
      destruct m'; [discriminate | discriminate].
    + intros [-> Hm]. inversion Hm; subst. exists (m, t); split; [reflexivity|].
      apply filter_In; split; [apply many_spec; auto|].
      destruct m; [congruence | reflexivity].
  - rewrite in_flat_map. split.
    + intros [[m1 g1 t1] [H1 H2]]. apply in_map_iff in H2.
      destruct H2 as [[m2 g2 t2] [R H2]]; simpl in R, H2.
      injection R as <- <- <-.
      apply IH1 in H1 as [-> M1]. apply IH2 in H2 as [-> M2].
      split; [rewrite app_assoc; reflexivity | econstructor; eauto].
    + intros [-> Hm]. inversion Hm; subst.
      exists (Result w1 g1 (w2 +++ t)). split.
      * apply IH1; split; [rewrite app_assoc; reflexivity | assumption].
      * apply in_map_iff. exists (Result w2 g' t); split; [reflexivity|].
        apply IH2; auto.
  - rewrite in_map_iff. split.
    + intros [[m1 g1 t1] [R H1]]; simpl in R; injection R as <- <- <-.
      apply IH in H1 as [-> M1]. split; [reflexivity | econstructor; eauto].
    + intros [-> Hm]. inversion Hm; subst.
      exists (Result m g'0 t); split; [reflexivity | apply IH; auto].
  - destruct g as [v|].
    + destruct (strip_prefix v s) as [s'|] eqn:E; simpl.
      * apply strip_prefix_Some in E. split.
        -- intros [R|[]]; injection R as <- <- <-. split; [assumption|constructor].
        -- intros [Hs Hm]. inversion Hm; subst. left.
           apply app_inv_head in Hs. subst; reflexivity.
      * split; [tauto|]. intros [Hs Hm]. inversion Hm; subst.
        rewrite strip_prefix_app in E; discriminate.
    + simpl; split; [tauto|]. intros [_ Hm]; inversion Hm.
Qed.

(** [re.search] finds a match exactly when some suffix has one, and what it
    returns is a match of a suffix. *)
Lemma re_search_Some r s x :
  re_search r s = Some x ->
  exists pre, s = pre +++ matched x +++ rest x
              /\ Matches r None (matched x) (group1 x).
Proof.
  induction s as [|c s IH]; simpl.
  - destruct (exec r None []) as [|y l] eqn:E; [discriminate|].
    intros R; injection R as ->. exists []. destruct x as [m g t].
    apply (exec_spec r None [] m g t). rewrite E; left; reflexivity.
  - destruct (exec r None (c :: s)) as [|y l] eqn:E.
    + intros R. destruct (IH R) as [pre [-> Hm]]. exists (c :: pre); auto.
    + intros R; injection R as ->. exists []. destruct x as [m g t].
      apply (exec_spec r None (c :: s) m g t). rewrite E; left; reflexivity.
Qed.

Lemma re_search_None r s :
  re_search r s = None ->
  forall pre m t g, s = pre +++ m +++ t -> ~ Matches r None m g.
Proof.
  induction s as [|c s IH]; simpl.
  - destruct (exec r None []) as [|y l] eqn:E; [|discriminate].
    intros _ pre m t g Hs Hm. symmetry in Hs.
    apply app_eq_nil in Hs as [-> Hs]. apply app_eq_nil in Hs as [-> ->].
    assert (In (Result [] g []) (exec r None [])) as Hin
        by (apply exec_spec; auto).
    rewrite E in Hin; destruct Hin.
  - destruct (exec r None (c :: s)) as [|y l] eqn:E; [|discriminate].
    intros R pre m t g Hs Hm. destruct pre as [|d pre]; simpl in Hs.
    + assert (In (Result m g t) (exec r None (c :: s))) as Hin
          by (apply exec_spec; auto).
      rewrite E in Hin; destruct Hin.
    + injection Hs as _ Hs. exact (IH R pre m t g Hs Hm).
Qed.

End Classifier.

Section ClassifierSpec.
Context `{PyLib}.

Ltac inv H := inversion H; subst; clear H.

Lemma all_dot (w : text) : Forall (fun c => atom_ok Dot c = true) w.
Proof. apply Forall_forall; reflexivity. Qed.

Lemma pattern_Matches w g :
  Matches pattern None w g
  <-> exists V mid1 mid2,
        is_version V /\ g = Some V
        /\ w = txt "No interpreter found for Python " +++ V +++ mid1
               +++ txt "A managed Python download is available" +++ mid2
               +++ txt "use `uv python install " +++ V +++ txt "`".
Proof.
  unfold pattern. split.
  - intros M.
    repeat match goal with
           | M : Matches (Cat _ _) _ _ _ |- _ => inv M
           | M : Matches (Str _) _ _ _ |- _ => inv M
           | M : Matches (Group _) _ _ _ |- _ => inv M
           | M : Matches (Many _) _ _ _ |- _ => inv M
           | M : Matches (Many1 _) _ _ _ |- _ => inv M
           | M : Matches Backref _ _ _ |- _ => inv M
           end.
    match goal with
    | Ha : Forall (fun c => atom_ok Digit c = true) ?a,
      Hb : Forall (fun c => atom_ok Digit c = true) ?b
      |- context [Some (?a +++ _)] =>
        exists (a +++ txt "." +++ b); do 2 eexists;
        split; [exists a, b; auto | split; reflexivity]
    end.
  - intros [V [mid1 [mid2 [[a [b [-> [Ha [Hb [Da Db]]]]]] [-> ->]]]]].
    apply MCat with (g1 := None); [constructor|].
    apply MCat with (g1 := Some (a +++ txt "." +++ b)).
    { apply MGroup with (g' := None).
      apply MCat with (g1 := None); [constructor; assumption|].
      apply MCat with (g1 := None); constructor; assumption. }
    apply MCat with (g1 := Some (a +++ txt "." +++ b));
      [constructor; apply all_dot|].
    apply MCat with (g1 := Some (a +++ txt "." +++ b)); [constructor|].
    apply MCat with (g1 := Some (a +++ txt "." +++ b));
      [constructor; apply all_dot|].
    apply MCat with (g1 := Some (a +++ txt "." +++ b)); [constructor|].
    apply MCat with (g1 := Some (a +++ txt "." +++ b)); constructor.
Qed.

Lemma is_version_nonempty V : is_version V -> V <> [].
Proof.
  intros [a [b [-> [Ha _]]]] E. apply app_eq_nil in E as [E _]. auto.
Qed.

Lemma detect_sound output V :
  detect_missing_ver output = Some V ->
  is_version V /\ reports_missing V output.
Proof.
  unfold detect_missing_ver.
  destruct (re_search pattern output) as [x|] eqn:E; [|discriminate].
  intros G. apply re_search_Some in E as [pre [Hs Hm]].
  apply pattern_Matches in Hm as [V' [mid1 [mid2 [Hv [Hg Hw]]]]].
  rewrite G in Hg; injection Hg as <-. split; [assumption|].
  exists pre, mid1, mid2, (rest x). rewrite Hs, Hw.
  rewrite <- !app_assoc. reflexivity.
Qed.

Lemma detect_complete output V :
  is_version V -> reports_missing V output ->
  exists V', detect_missing_ver output = Some V'.
Proof.
  intros Hv [pre [mid1 [mid2 [post Hs]]]]. unfold detect_missing_ver.
  destruct (re_search pattern output) as [x|] eqn:E.
  - apply re_search_Some in E as [pre' [_ Hm]].
    apply pattern_Matches in Hm as [V' [_ [_ [_ [Hg _]]]]].
    exists V'; assumption.
  - exfalso.
    refine (@re_search_None _ _ _ E pre
              (txt "No interpreter found for Python " +++ V +++ mid1
               +++ txt "A managed Python download is available" +++ mid2
               +++ txt "use `uv python install " +++ V +++ txt "`")
              post (Some V) _ _).
    + rewrite Hs, <- !app_assoc. reflexivity.
    + apply pattern_Matches. exists V, mid1, mid2. auto.
Qed.

(** A version the classifier returns is never the empty string, so the
    test [if missing_ver:] of [main] succeeds on every match. *)
Lemma detect_truthy output V :
  detect_missing_ver output = Some V -> truthy (Some V) = true.
Proof.
  intros E. apply detect_sound in E as [Hv _].
  apply is_version_nonempty in Hv. destruct V; [congruence | reflexivity].
Qed.

(** What the classifier does: it returns a version exactly when, for some
    version, the text contains the two fragments as substrings, the second
    somewhere after the first; and a version it returns is such a
    version. *)
Lemma detect_missing_ver_substrings (output : text) :
  (forall V, detect_missing_ver output = Some V ->
             is_version V /\ reports_missing V output)
  /\ ((exists V, detect_missing_ver output = Some V)
      <-> (exists V, is_version V /\ reports_missing V output)).
Proof.
  split; [intros V; apply detect_sound|]. split.
  - intros [V E]. exists V. apply detect_sound; assumption.
  - intros [V [Hv Hr]]. eapply detect_complete; eauto.
Qed.

Lemma is_version_snoc (B : text) (d : codepoint) :
  is_version B -> re_digit d = true -> is_version (B +++ [d]).
Proof.
  intros [a [b [-> [Ha [Hb [Da Db]]]]]] Hd. exists a, (b +++ [d]).
  split; [rewrite <- !app_assoc; reflexivity|]. split; [assumption|].
  split; [intros E; apply app_eq_nil in E as [_ E]; discriminate|].
  split; [assumption|]. apply Forall_app. split; [assumption|].
  constructor; [assumption | constructor].
Qed.

(** C3, as the code behaves: nothing in the pattern ends the version of the
    first fragment, so group 1 can bind a proper prefix of it.  A text
    whose first fragment names the version [B] followed by one more digit
    and whose second fragment names [B] names two different versions, and
    it is classified as a match all the same. *)
Theorem longer_version_is_matched
        (B : text) (d : codepoint) (pre mid1 mid2 post : text) :
  is_version B ->
  re_digit d = true ->
  let A := B +++ [d] in
  let output :=
    pre +++ txt "No interpreter found for Python " +++ A +++ mid1
        +++ txt "A managed Python download is available" +++ mid2
        +++ txt "use `uv python install " +++ B +++ txt "`" +++ post in
  is_version A /\ A <> B
  /\ exists V, detect_missing_ver output = Some V.
Proof.
  intros Hb Hd. cbv zeta. split; [apply is_version_snoc; assumption|].
  split.
  - intros E. apply (f_equal (@List.length codepoint)) in E.
    rewrite length_app in E. simpl in E. lia.
  - apply (detect_complete Hb).
    exists pre, ([d] +++ mid1), mid2, post.
    rewrite <- !app_assoc. reflexivity.
Qed.

End ClassifierSpec.

(** ** The recovery protocol *)

Lemma returns_ret {A} (a : A) (P : A -> Prop) : P a -> returns (ret a) P.
Proof. intros Ha st b st' E; injection E as <- _; assumption. Qed.

Lemma returns_bind {A B} (c : M A) (k : A -> M B) (P : B -> Prop) :
  (forall a, returns (k a) P) -> returns (bind c k) P.
Proof.
  intros Hk st b st'. unfold bind.
  destruct (c st) as [[a|e] st1]; [apply Hk | discriminate].
Qed.

Section Recovery.
Context `{PyLib}.
Variable W : world.

(** The assembled command is never a remediation command. *)
Lemma main_cmd_not_install st cmd st1 :
  main_cmd W st = (Ret cmd, st1) -> is_install cmd = false.
Proof.
  revert st cmd st1.
  change (returns (main_cmd W) (fun cmd => is_install cmd = false)).
  unfold main_cmd.
  repeat first [ apply returns_bind; intro
               | apply returns_ret; reflexivity
               | match goal with
                 | |- returns (if ?b then _ else _) _ => destruct b
                 end ].
Qed.

Lemma main_spawns_body st :
  spawns (trace (snd (main W st)))
  = spawns (trace (snd (bind (main_cmd W) (main_run W) st))).
Proof.
  unfold main, try_except_KeyboardInterrupt.
  change (fun cmd : text => main_run W cmd) with (main_run W).
  destruct (bind (main_cmd W) (main_run W) st) as [[[]|[]] st']; simpl;
    try reflexivity.
  apply (@quiet_bind _ _ (rprint Stdout stopped_msg)
           (fun _ => sys_exit 130) (quiet_rprint _ _)
           (fun _ => quiet_raise _) st').
Qed.

Lemma main_run_spawns cmd st :
  exists cmds,
    spawns (trace (snd (main_run W cmd st))) = spawns (trace st) ++ cmds
    /\ (cmds = [cmd] \/ cmds = [cmd; cmd]
        \/ exists v, cmds = [cmd; install_cmd v]
                     \/ cmds = [cmd; install_cmd v; cmd]).
Proof.
  pose proof (cmd_run_spawns W cmd st) as H1.
  destruct (cmd_run W cmd st) as [[[code out]|e] st1] eqn:E1; simpl in H1.
  2:{ rewrite (main_run_interrupted _ _ _ E1). eauto. }
  destruct ((code =? 0)%Z || negb (truthy (detect_missing_ver out)))
    eqn:Hc.
  { rewrite (main_run_unrecovered _ _ _ E1 Hc). eauto. }
  apply orb_false_iff in Hc as [Hz Ht]. apply Z.eqb_neq in Hz.
  apply negb_false_iff in Ht.
  destruct (truthy_Some _ Ht) as [v Hd].
  rewrite Hd in Ht. rewrite (main_run_recovering _ _ _ E1 Hz Hd Ht).
  pose proof (install_spawns W v st1) as H2.
  destruct (install_missing_ver W v st1) as [[[]|e] st2]; simpl in H2.
  - pose proof (cmd_run_spawns W cmd st2) as H3.
    destruct (cmd_run W cmd st2) as [[[code' out']|e] st3]; simpl in *;
      rewrite H3; destruct H2 as [-> | ->]; rewrite H1, <- ?app_assoc;
      simpl; eauto 8.
  - simpl. destruct H2 as [-> | ->]; rewrite H1, <- ?app_assoc; simpl;
      eauto 8.
Qed.

(** C6: when the first run of the assembled command exits with code 0, the
    program exits with code 0 in the state the run left: the command is the
    only process spawned, no line of input is read after it and nothing
    follows its relayed output, so neither the consent prompt, nor the
    remediation command, nor a retry takes place. *)
Theorem exit_zero_is_final st cmd st1 out st2 :
  main_cmd W st = (Ret cmd, st1) ->
  cmd_run W cmd st1 = (Ret (0%Z, out), st2) ->
  main W st = (Raise (SystemExit 0), st2)
  /\ spawns (trace st2) = spawns (trace st) ++ [cmd]
  /\ stdin st2 = stdin st1
  /\ exists chunks, trace st2 = trace st1 ++ ESpawn cmd :: map EWrite chunks.
Proof.
  intros E0 E1. split; [|split; [|split]].
  - apply main_body_exit. rewrite (bind_Ret _ _ _ E0).
    apply (main_run_unrecovered _ _ _ E1). reflexivity.
  - pose proof (cmd_run_spawns W cmd st1) as H1. rewrite E1 in H1.
    pose proof (quiet_main_cmd W st) as [H0 _]. rewrite E0 in H0.
    simpl in *. congruence.
  - rewrite cmd_run_spec in E1. injection E1 as _ <-. reflexivity.
  - rewrite cmd_run_spec in E1. injection E1 as _ <-. simpl. eauto.
Qed.

(** C1, as the code behaves: when the first run fails, its output is
    classified and the user declines, [install_missing_ver] returns
    normally and [main] goes on to run the command a second time; the
    program exits with the code of that second run. *)
Theorem decline_reruns_command st cmd st1 code out st2 v st3 code' out' st4 :
  main_cmd W st = (Ret cmd, st1) ->
  cmd_run W cmd st1 = (Ret (code, out), st2) ->
  code <> 0%Z ->
  detect_missing_ver out = Some v ->
  yn_inp (install_prompt v) st2 = (Ret false, st3) ->
  cmd_run W cmd st3 = (Ret (code', out'), st4) ->
  main W st = (Raise (SystemExit code'), st4)
  /\ spawns (trace st4) = spawns (trace st) ++ [cmd; cmd].
Proof.
  intros E0 E1 Hc Hd Ey E2. split.
  - apply main_body_exit. rewrite (bind_Ret _ _ _ E0).
    rewrite (main_run_recovering _ _ _ E1 Hc Hd (detect_truthy _ Hd)).
    rewrite (install_declined W _ _ Ey), E2. reflexivity.
  - pose proof (quiet_main_cmd W st) as [H0 _]. rewrite E0 in H0.
    pose proof (cmd_run_spawns W cmd st1) as H1. rewrite E1 in H1.
    pose proof (quiet_yn_inp (install_prompt v) st2) as [H2 _].
    rewrite Ey in H2.
    pose proof (cmd_run_spawns W cmd st3) as H3. rewrite E2 in H3.
    simpl in *. rewrite H3, H2, H1, H0, <- app_assoc. reflexivity.
Qed.

(** C4: when the remediation command is run and exits with a non-zero
    code, the program reports the failure and exits at once with that
    code; the processes spawned are the original command and the
    remediation command, so the original command is not retried. *)
Theorem remediation_failure_is_fatal
        st cmd st1 code out st2 v st3 icode iout st4 :
  main_cmd W st = (Ret cmd, st1) ->
  cmd_run W cmd st1 = (Ret (code, out), st2) ->
  code <> 0%Z ->
  detect_missing_ver out = Some v ->
  yn_inp (install_prompt v) st2 = (Ret true, st3) ->
  cmd_run W (install_cmd v) (log (EPrint Stderr (installing_msg v)) st3)
  = (Ret (icode, iout), st4) ->
  icode <> 0%Z ->
  main W st
  = (Raise (SystemExit icode), log (EPrint Stderr (failed_msg v)) st4)
  /\ spawns (trace (log (EPrint Stderr (failed_msg v)) st4))
     = spawns (trace st) ++ [cmd; install_cmd v].
Proof.
  intros E0 E1 Hc Hd Ey E2 Hi. split.
  - apply main_body_exit. rewrite (bind_Ret _ _ _ E0).
    rewrite (main_run_recovering _ _ _ E1 Hc Hd (detect_truthy _ Hd)).
    rewrite (@install_accepted_version _ W v _ _
               (proj1 (detect_sound _ Hd)) Ey), E2.
    apply Z.eqb_neq in Hi. rewrite Hi. reflexivity.
  - pose proof (quiet_main_cmd W st) as [H0 _]. rewrite E0 in H0.
    pose proof (cmd_run_spawns W cmd st1) as H1. rewrite E1 in H1.
    pose proof (quiet_yn_inp (install_prompt v) st2) as [H2 _].
    rewrite Ey in H2.
    pose proof (cmd_run_spawns W (install_cmd v)
                  (log (EPrint Stderr (installing_msg v)) st3)) as H3.
    rewrite E2 in H3. simpl in *.
    rewrite spawns_app, H3, spawns_app, H2, H1, H0; simpl.
    rewrite !app_nil_r, <- app_assoc. reflexivity.
Qed.

(** C5: in every invocation the processes spawned are, in order: none; or
    the assembled command alone; or the command twice; or the command and
    one remediation command; or the command, one remediation command and
    the command once more.  So remediation runs at most once and the
    command is retried at most once.  When the retry returns, the program
    exits with its code in the state the retry left, whatever the retry
    printed: its output is not classified again. *)
Theorem at_most_one_remediation_and_retry :
  (forall st, exists cmds,
      spawns (trace (snd (main W st))) = spawns (trace st) ++ cmds
      /\ (cmds = []
          \/ exists cmd,
              is_install cmd = false
              /\ (cmds = [cmd] \/ cmds = [cmd; cmd]
                  \/ exists v, cmds = [cmd; install_cmd v]
                               \/ cmds = [cmd; install_cmd v; cmd])))
  /\ (forall st cmd st1 code out st2 v st3 code' out' st4,
         main_cmd W st = (Ret cmd, st1) ->
         cmd_run W cmd st1 = (Ret (code, out), st2) ->
         code <> 0%Z ->
         detect_missing_ver out = Some v ->
         install_missing_ver W v st2 = (Ret tt, st3) ->
         cmd_run W cmd st3 = (Ret (code', out'), st4) ->
         main W st = (Raise (SystemExit code'), st4)).
Proof.
  split.
  - intros st. rewrite main_spawns_body. unfold bind.
    pose proof (quiet_main_cmd W st) as [H0 _].
    destruct (main_cmd W st) as [[cmd|e] st1] eqn:E0; simpl in H0.
    + destruct (main_run_spawns cmd st1) as [cmds [Hs Hshape]].
      exists cmds. rewrite Hs, H0. split; [reflexivity|].
      right. exists cmd. split; [|assumption].
      eapply main_cmd_not_install; eassumption.
    + exists []. simpl. rewrite app_nil_r. auto.
  - intros st cmd st1 code out st2 v st3 code' out' st4 E0 E1 Hc Hd Ei E2.
    apply main_body_exit. rewrite (bind_Ret _ _ _ E0).
    rewrite (main_run_recovering _ _ _ E1 Hc Hd (detect_truthy _ Hd)).
    rewrite Ei, E2. reflexivity.
Qed.

End Recovery.

(** ** Command-line arguments *)

Lemma text_in_false (x : text) (xs : list text) :
  ~ In x xs -> text_in x xs = false.
Proof.
  intros Hn. destruct (text_in x xs) eqn:E; [|reflexivity].
  apply text_in_In in E. contradiction.
Qed.

Section Arguments.
Context `{PyLib}.
Variable W : world.

Lemma main_parse_exit st code st' :
  parse_args W st = (Raise (SystemExit code), st') ->
  main W st = (Raise (SystemExit code), st').
Proof.
  intros E. apply main_body_exit. unfold main_cmd.
  rewrite (bind_Raise _ _ _ (bind_Raise _ _ _ E)). reflexivity.
Qed.

Lemma parse_args_help st :
  In (txt "-h") (argv W) \/ In (txt "--help") (argv W) ->
  parse_args W st = (Raise (SystemExit 0), log (EPrint Stdout HELP) st).
Proof.
  intros Hf. unfold parse_args.
  assert (text_in (txt "-h") (argv W) || text_in (txt "--help") (argv W)
          = true) as ->.
  { apply orb_true_iff. rewrite !text_in_In. assumption. }
  unfold bind at 1. unfold bind at 1.
  rewrite (@rprint_ok _ _ _ _ help_markup_ok). reflexivity.
Qed.

Lemma parse_args_version st :
  ~ In (txt "-h") (argv W) -> ~ In (txt "--help") (argv W) ->
  In (txt "-v") (argv W) \/ In (txt "--version") (argv W) ->
  parse_args W st
  = (Raise (SystemExit 0), log (EPrint Stdout version_msg) st).
Proof.
  intros H1 H2 Hf. unfold parse_args.
  rewrite (text_in_false _ _ H1), (text_in_false _ _ H2).
  assert (text_in (txt "-v") (argv W) || text_in (txt "--version") (argv W)
          = true) as ->.
  { apply orb_true_iff. rewrite !text_in_In. assumption. }
  unfold bind, ret, rprint. fold version_msg.
  rewrite version_msg_markup_ok. reflexivity.
Qed.

Lemma no_flags_in (args : list text) :
  (forall f, In f flags -> ~ In f args) ->
  text_in (txt "-h") args || text_in (txt "--help") args = false
  /\ text_in (txt "-v") args || text_in (txt "--version") args = false.
Proof.
  intros Hn. rewrite !text_in_false; auto; apply Hn; simpl; auto.
Qed.

(** C9: a help flag anywhere in the argument vector makes the program
    print the help text and exit with code 0, and a version flag with no
    help flag present makes it print the version and exit with code 0,
    whatever the other arguments are. *)
Theorem flags_take_precedence (st : state) :
  (In (txt "-h") (argv W) \/ In (txt "--help") (argv W) ->
   main W st = (Raise (SystemExit 0), log (EPrint Stdout HELP) st))
  /\ (~ In (txt "-h") (argv W) -> ~ In (txt "--help") (argv W) ->
      In (txt "-v") (argv W) \/ In (txt "--version") (argv W) ->
      main W st = (Raise (SystemExit 0), log (EPrint Stdout version_msg) st)).
Proof.
  split.
  - intros Hf. apply main_parse_exit, parse_args_help, Hf.
  - intros H1 H2 Hf. apply main_parse_exit, parse_args_version; assumption.
Qed.

(** C8: with exactly one positional argument, a valid project type, and no
    help or version flag, the program prints the usage error "missing arg:
    project name" on the error stream and exits with code 2; that message
    is the only event, so no child process is spawned. *)
Theorem missing_project_name (st : state) (prog t : text) :
  argv W = [prog; t] ->
  (forall f, In f flags -> ~ In f (argv W)) ->
  valid_type t ->
  main W st = (Raise (SystemExit 2), log (EPrint Stderr missing_name_msg) st)
  /\ spawns (trace (snd (main W st))) = spawns (trace st)
  /\ spawned (snd (main W st)) = spawned st.
Proof.
  intros Ha Hn Hv.
  assert (main W st
          = (Raise (SystemExit 2), log (EPrint Stderr missing_name_msg) st))
    as E.
  { apply main_parse_exit. unfold parse_args.
    destruct (no_flags_in _ Hn) as [-> ->].
    unfold sys_argv. rewrite Ha. simpl List.length. simpl nth_error.
    unfold bind, ret, valid_proj_type.
    assert (negb (dict_has PROJ_TYPES t)
            && negb (text_in t (map snd PROJ_TYPES)) = false) as ->.
    { rewrite <- negb_orb. apply negb_false_iff, orb_true_iff.
      unfold dict_has. rewrite !text_in_In. exact Hv. }
    unfold perr, rprint. fold missing_name_msg.
    rewrite missing_name_markup_ok. reflexivity. }
  rewrite E. simpl. rewrite spawns_app. simpl. rewrite app_nil_r. auto.
Qed.

End Arguments.

(** ** The version prompt *)

Section VersionPrompt.
Context `{PyLib}.

Lemma str_lower_empty : str_lower [] = [].
Proof. apply (str_lower_ascii []). reflexivity. Qed.

Lemma normalize_empty : normalize [] = [].
Proof. unfold normalize. simpl. apply str_lower_empty. Qed.

Lemma get_ver_body_Line st l more :
  stdin st = Line l :: more ->
  get_ver_body tt st =
  if text_eqb (normalize l) [] then (Ret (inl DEFAULT_VERSION), prompted st more)
  else if text_in (normalize l) supported_versions
       then (Ret (inl (normalize l)), prompted st more)
       else if markup_ok (invalid_version_msg (normalize l))
            then (Ret (inr tt),
                  log (EPrint Stderr (invalid_version_msg (normalize l)))
                      (prompted st more))
            else (Raise MarkupError, prompted st more).
Proof.
  intros E. unfold get_ver_body.
  rewrite (bind_Ret _ _ _ (inp_Line _ _ _ E)). fold (normalize l).
  destruct (text_eqb (normalize l) []); [reflexivity|].
  destruct (text_in (normalize l) supported_versions); [reflexivity|].
  change ((rprint Stderr (invalid_version_msg (normalize l)) ;;;
           ret (inr tt)) (prompted st more)
          = if markup_ok (invalid_version_msg (normalize l))
            then (@Ret (text + unit) (inr tt),
                  log (EPrint Stderr (invalid_version_msg (normalize l)))
                      (prompted st more))
            else (Raise MarkupError, prompted st more)).
  unfold bind, rprint. destruct (markup_ok _); reflexivity.
Qed.

Lemma get_ver_step st l more :
  stdin st = Line l :: more ->
  get_ver st =
  if text_eqb (normalize l) [] then (Ret DEFAULT_VERSION, prompted st more)
  else if text_in (normalize l) supported_versions
       then (Ret (normalize l), prompted st more)
       else if markup_ok (invalid_version_msg (normalize l))
            then get_ver
                   (log (EPrint Stderr (invalid_version_msg (normalize l)))
                        (prompted st more))
            else (Raise MarkupError, prompted st more).
Proof.
  intros E. unfold get_ver at 1. rewrite E. simpl List.length.
  cbn [while_true]. unfold bind at 1. rewrite (get_ver_body_Line _ E).
  destruct (text_eqb (normalize l) []); [reflexivity|].
  destruct (text_in (normalize l) supported_versions); [reflexivity|].
  destruct (markup_ok _); reflexivity.
Qed.

Lemma get_ver_valid st l more :
  stdin st = Line l :: more -> valid_answer l ->
  get_ver st = (Ret (resolve l), prompted st more).
Proof.
  intros E Hv. rewrite (get_ver_step _ E). unfold resolve.
  destruct (text_eqb (normalize l) []) eqn:Ee; [reflexivity|].
  destruct Hv as [Hv|Hv].
  - rewrite Hv in Ee. discriminate.
  - apply text_in_In in Hv. rewrite Hv. reflexivity.
Qed.

Lemma get_ver_invalid st l more :
  stdin st = Line l :: more -> invalid_answer l -> rejection_renders l ->
  get_ver st
  = get_ver (log (EPrint Stderr (invalid_version_msg (normalize l)))
                 (prompted st more)).
Proof.
  intros E [Hne Hni] Hr. rewrite (get_ver_step _ E).
  destruct (text_eqb (normalize l) []) eqn:Ee.
  - apply text_eqb_eq in Ee. contradiction.
  - rewrite (text_in_false _ _ Hni), Hr. reflexivity.
Qed.

Lemma get_ver_unrendered st l more :
  stdin st = Line l :: more -> invalid_answer l ->
  markup_ok (invalid_version_msg (normalize l)) = false ->
  get_ver st = (Raise MarkupError, prompted st more).
Proof.
  intros E [Hne Hni] Hr. rewrite (get_ver_step _ E).
  destruct (text_eqb (normalize l) []) eqn:Ee.
  - apply text_eqb_eq in Ee. contradiction.
  - rewrite (text_in_false _ _ Hni), Hr. reflexivity.
Qed.

Lemma get_ver_until_valid bad : forall st good more,
  Forall invalid_answer bad -> Forall rejection_renders bad ->
  valid_answer good ->
  stdin st = map Line bad ++ Line good :: more ->
  get_ver st
  = (Ret (resolve good),
     State more (spawned st)
           (trace st ++ rejections bad ++ [EPrompt version_prompt])).
Proof.
  induction bad as [|l bad IH]; intros st good more Hb Hr Hg E; simpl in E.
  - rewrite (get_ver_valid _ E Hg). reflexivity.
  - inversion Hb as [|? ? Hl Hb']; subst.
    inversion Hr as [|? ? Hrl Hr']; subst.
    rewrite (get_ver_invalid _ E Hl Hrl).
    rewrite (IH (log (EPrint Stderr (invalid_version_msg (normalize l)))
                     (prompted st (map Line bad ++ Line good :: more)))
                good more Hb' Hr' Hg eq_refl). simpl.
    rewrite <- !app_assoc. reflexivity.
Qed.

(** C10: an empty answer to the version prompt resolves to exactly "3.13";
    the supported versions are 3.7 to 3.14, of which 3.13 is the second
    from the end and 3.14, the highest, the last. *)
Theorem default_version_is_3_13 (st : state) (more : list stdin_event) :
  stdin st = Line [] :: more ->
  get_ver st = (Ret (txt "3.13"), prompted st more)
  /\ supported_versions
     = [txt "3.7"; txt "3.8"; txt "3.9"; txt "3.10"; txt "3.11"; txt "3.12";
        txt "3.13"; txt "3.14"]
  /\ py_getitem supported_versions (-2) = Some (txt "3.13")
  /\ py_getitem supported_versions (-1) = Some (txt "3.14")
  /\ txt "3.13" <> txt "3.14".
Proof.
  intros E. split; [|repeat split; try reflexivity; discriminate].
  rewrite (get_ver_valid _ E).
  - unfold resolve. rewrite normalize_empty. reflexivity.
  - left. apply normalize_empty.
Qed.

End VersionPrompt.

Section ScriptScenario.
Context `{PyLib}.

Lemma foo_isidentifier : str_isidentifier (txt "foo") = true.
Proof. rewrite str_isidentifier_ascii; reflexivity. Qed.

Lemma parse_args_script W st prog t :
  argv W = [prog; t; txt "foo"] ->
  t = txt "script" \/ t = txt "s" ->
  (forall f, In f flags -> ~ In f (argv W)) ->
  parse_args W st = (Ret (txt "script", txt "foo"), st).
Proof.
  intros Ha Ht Hn. unfold parse_args.
  destruct (no_flags_in _ Hn) as [-> ->].
  unfold sys_argv. rewrite Ha. simpl List.length. simpl nth_error.
  unfold bind, ret, valid_proj_name. rewrite foo_isidentifier.
  destruct Ht as [-> | ->]; reflexivity.
Qed.

(** The scenario of the specification: for type [script] (or its code [s])
    and name [foo], an empty answer to the version prompt makes the
    assembled command exactly [uv init foo --script --python 3.13], with
    [--script] and the default version and no description, vcs or readme
    flag. *)
Lemma script_scenario W st prog t more :
  argv W = [prog; t; txt "foo"] ->
  t = txt "script" \/ t = txt "s" ->
  (forall f, In f flags -> ~ In f (argv W)) ->
  stdin st = Line [] :: more ->
  let cmd := txt "uv init foo --script --python 3.13" in
  main_cmd W st = (Ret cmd, prompted st more)
  /\ is_infix (txt "--script") cmd = true
  /\ is_infix DEFAULT_VERSION cmd = true
  /\ is_infix (txt "--description") cmd = false
  /\ is_infix (txt "--vcs") cmd = false
  /\ is_infix (txt "readme") cmd = false.
Proof.
  intros Ha Ht Hn E. cbv zeta.
  split; [|repeat split; reflexivity].
  unfold main_cmd.
  rewrite (bind_Ret _ _ _ (parse_args_script W st Ha Ht Hn)).
  cbn [fst snd].
  assert (get_ver st = (Ret DEFAULT_VERSION, prompted st more)) as Ev.
  { rewrite (get_ver_valid _ E).
    - unfold resolve. rewrite normalize_empty. reflexivity.
    - left. apply normalize_empty. }
  rewrite (bind_Ret _ _ _ Ev). reflexivity.
Qed.

(** C7, as the code behaves: the answer that [get_ver] rejects is put
    into the markup of the error message as it is.  When that markup does
    not render, as for an answer holding a closing tag that closes
    nothing, [rich.print] raises [MarkupError] inside [perr]: no message
    is printed, the prompt is not repeated, and [get_ver] and the program
    end with that exception, where the specification has an error message
    and a new prompt.  The other answers behave as specified: an empty
    answer resolves to the default, and the prompt repeats, with an error
    message each time, over rejected answers whose message renders, until
    an accepted answer comes. *)
Theorem rejected_answer_breaks_markup :
  (forall st l more,
      stdin st = Line l :: more ->
      invalid_answer l ->
      markup_ok (invalid_version_msg (normalize l)) = false ->
      get_ver st = (Raise MarkupError, prompted st more)
      /\ forall W prog t,
           argv W = [prog; t; txt "foo"] ->
           t = txt "script" \/ t = txt "s" ->
           (forall f, In f flags -> ~ In f (argv W)) ->
           main W st = (Raise MarkupError, prompted st more))
  /\ (forall l, normalize l = [] -> resolve l = DEFAULT_VERSION)
  /\ (forall st bad good more,
         Forall invalid_answer bad -> Forall rejection_renders bad ->
         valid_answer good ->
         stdin st = map Line bad ++ Line good :: more ->
         get_ver st
         = (Ret (resolve good),
            State more (spawned st)
                  (trace st ++ rejections bad ++ [EPrompt version_prompt]))).
Proof.
  split; [|split].
  - intros st l more E Hi Hr.
    pose proof (get_ver_unrendered _ E Hi Hr) as Ev.
    split; [exact Ev|]. intros W prog t Ha Ht Hn.
    unfold main, try_except_KeyboardInterrupt, main_cmd.
    unfold bind at 1. unfold bind at 1.
    rewrite (parse_args_script W st Ha Ht Hn). cbn [fst snd].
    unfold bind at 1. rewrite Ev. reflexivity.
  - intros l E. unfold resolve. rewrite E. reflexivity.
  - intros st bad good more. apply get_ver_until_valid.
Qed.

End ScriptScenario.

(** ** UTF-8: decoding well-formed bytes loses nothing *)

Ltac boolp :=
  repeat match goal with
         | H : is_cont _ = _ |- _ => unfold is_cont in H
         | H : negb _ = true |- _ => apply negb_true_iff in H
         | H : negb _ = false |- _ => apply negb_false_iff in H
         | H : _ && _ = true |- _ => apply andb_true_iff in H as [? ?]
         | H : _ || _ = false |- _ => apply orb_false_iff in H as [? ?]
         | H : (if ?a then _ else _) = _ |- _ => destruct a eqn:?
         | H : (_ <? _)%N = true |- _ => apply N.ltb_lt in H
         | H : (_ <? _)%N = false |- _ => apply N.ltb_ge in H
         | H : (_ <=? _)%N = true |- _ => apply N.leb_le in H
         | H : (_ <=? _)%N = false |- _ => apply N.leb_gt in H
         | H : (_ =? _)%N = true |- _ => apply N.eqb_eq in H
         | H : (_ =? _)%N = false |- _ => apply N.eqb_neq in H
         end.

Ltac div_mod_lia :=
  Z.to_euclidean_division_equations; lia.

Lemma encode_1 c : (c < 128)%N -> utf8_encode_cp c = [c].
Proof.
  intros Hc. unfold utf8_encode_cp.
  destruct (N.ltb_spec c 128); [reflexivity | lia].
Qed.

Lemma encode_2 c1 c2 :
  (194 <= c1 < 224)%N -> (128 <= c2 <= 191)%N ->
  utf8_encode_cp ((c1 - 192) * 64 + (c2 - 128))%N = [c1; c2].
Proof.
  intros H1 H2. unfold utf8_encode_cp.
  destruct (N.ltb_spec ((c1 - 192) * 64 + (c2 - 128))%N 128); [lia|].
  destruct (N.ltb_spec ((c1 - 192) * 64 + (c2 - 128))%N 2048); [|lia].
  f_equal; [|f_equal]; zify; div_mod_lia.
Qed.

Lemma encode_3 c1 c2 c3 :
  (224 <= c1 < 240)%N -> (128 <= c2 <= 191)%N -> (128 <= c3 <= 191)%N ->
  (c1 = 224 -> 160 <= c2)%N ->
  utf8_encode_cp ((c1 - 224) * 4096 + (c2 - 128) * 64 + (c3 - 128))%N
  = [c1; c2; c3].
Proof.
  intros H1 H2 H3 Ho. unfold utf8_encode_cp.
  set (cp := ((c1 - 224) * 4096 + (c2 - 128) * 64 + (c3 - 128))%N).
  assert (2048 <= cp < 65536)%N as Hcp by (subst cp; lia).
  destruct (N.ltb_spec cp 128); [lia|].
  destruct (N.ltb_spec cp 2048); [lia|].
  destruct (N.ltb_spec cp 65536); [|lia].
  subst cp. f_equal; [|f_equal; [|f_equal]]; zify; div_mod_lia.
Qed.

Lemma encode_4 c1 c2 c3 c4 :
  (240 <= c1 < 245)%N -> (128 <= c2 <= 191)%N -> (128 <= c3 <= 191)%N ->
  (128 <= c4 <= 191)%N -> (c1 = 240 -> 144 <= c2)%N ->
  utf8_encode_cp ((c1 - 240) * 262144 + (c2 - 128) * 4096
                  + (c3 - 128) * 64 + (c4 - 128))%N
  = [c1; c2; c3; c4].
Proof.
  intros H1 H2 H3 H4 Ho. unfold utf8_encode_cp.
  set (cp := ((c1 - 240) * 262144 + (c2 - 128) * 4096
              + (c3 - 128) * 64 + (c4 - 128))%N).
  assert (65536 <= cp)%N as Hcp by (subst cp; lia).
  destruct (N.ltb_spec cp 128); [lia|].
  destruct (N.ltb_spec cp 2048); [lia|].
  destruct (N.ltb_spec cp 65536); [lia|].
  subst cp. f_equal; [|f_equal; [|f_equal; [|f_equal]]]; zify; div_mod_lia.
Qed.

Lemma utf8_roundtrip_bounded n : forall bs,
  List.length bs <= n ->
  well_formed_utf8 bs = true ->
  utf8_encode (decode_replace bs) = byte_values bs.
Proof.
  induction n as [|n IH]; intros bs Hlen.
  - destruct bs; [reflexivity | simpl in Hlen; lia].
  - destruct bs as [|b1 t1]; [reflexivity|].
    unfold well_formed_utf8 at 1, decode_replace. cbn [utf8_items].
    repeat match goal with
           | |- context [if ?c then _ else _] => destruct c eqn:?
           | |- context [match ?l with [] => _ | _ :: _ => _ end] =>
               is_var l; destruct l
           end;
      cbn [forallb map item_or_replacement andb];
      try (intros; discriminate);
      intros Hwf;
      unfold utf8_encode; cbn [flat_map]; unfold byte_values; cbn [map];
      boolp.
    all: try (rewrite encode_1 by lia).
    all: try (rewrite encode_2 by lia).
    all: try (rewrite encode_3 by lia).
    all: try (rewrite encode_4 by lia).
    all: cbn [app utf8_items flat_map map]; try reflexivity;
      repeat (apply (f_equal2 (@cons N)); [reflexivity|]); apply IH;
      first [exact Hwf | cbn [List.length] in Hlen; lia].
Qed.

(** Decoding well-formed UTF-8 and encoding the text again gives back the
    bytes. *)
Lemma utf8_roundtrip (data : bytes) :
  well_formed_utf8 data = true ->
  utf8_encode (decode_replace data) = byte_values data.
Proof. apply (@utf8_roundtrip_bounded (List.length data) data); lia. Qed.

Lemma utf8_encode_app (a b : text) :
  utf8_encode (a +++ b) = utf8_encode a ++ utf8_encode b.
Proof. apply flat_map_app. Qed.

Lemma utf8_roundtrip_chunks (chunks : list bytes) :
  forallb well_formed_utf8 chunks = true ->
  utf8_encode (List.concat (map decode_replace chunks))
  = byte_values (List.concat chunks).
Proof.
  induction chunks as [|c chunks IH]; simpl; [reflexivity|].
  intros Hw. apply andb_true_iff in Hw as [Hc Hw].
  rewrite utf8_encode_app, (utf8_roundtrip c Hc), (IH Hw).
  unfold byte_values. rewrite map_app. reflexivity.
Qed.

(** ** The PTY executor: what is relayed and what is captured *)

(** C2, as stated, fails: the byte 0xFF is relayed as it is, and captured
    as U+FFFD, whose encoding is the three bytes EF BF BD. *)
Lemma capture_differs_from_relay :
  cmd_run (World [] (fun _ _ => child_0xFF)) (txt "printf") (State [] 0 [])
  = (Ret (0%Z, [REPLACEMENT]),
     State [] 1 [ESpawn (txt "printf"); EWrite [xff]])
  /\ utf8_encode [REPLACEMENT] = [239; 191; 189]%N
  /\ byte_values [xff] = [255%N]
  /\ ~ capture_equals_relay.
Proof.
  split; [reflexivity|]. split; [reflexivity|]. split; [reflexivity|].
  intros Hc.
  specialize (Hc (World [] (fun _ _ => child_0xFF)) (txt "printf")
                 (State [] 0 []) _ _ _
                 [ESpawn (txt "printf"); EWrite [xff]] eq_refl eq_refl).
  discriminate Hc.
Qed.

(** C2, amended: [cmd_run] relays the chunks it reads, one write each, in
    the order read, and the text it returns is the concatenation, in the
    same order, of the decoding of each of these chunks with ill-formed
    sequences replaced; nothing is dropped, reordered or duplicated
    between the two.  When every chunk is well-formed UTF-8 the captured
    text encodes back to exactly the bytes relayed. *)
Theorem capture_is_decoded_relay (W : world) (cmd : text) (st : state) :
  let proc := popen W (spawned st) cmd in
  let chunks := relayed (reads proc) in
  trace (snd (cmd_run W cmd st)) = trace st ++ ESpawn cmd :: map EWrite chunks
  /\ written (trace (snd (cmd_run W cmd st))) = written (trace st) ++ chunks
  /\ (interrupted (reads proc) = false ->
      fst (cmd_run W cmd st)
      = Ret (returncode proc, List.concat (map decode_replace chunks))
      /\ (forallb well_formed_utf8 chunks = true ->
          utf8_encode (List.concat (map decode_replace chunks))
          = byte_values (List.concat chunks))).
Proof.
  cbv zeta. rewrite cmd_run_spec. cbn [fst snd trace].
  split; [reflexivity|]. split.
  - rewrite written_app. cbn [written]. rewrite written_writes. reflexivity.
  - intros ->. split; [reflexivity | apply utf8_roundtrip_chunks].
Qed.

(** ** The program never runs out of loop fuel *)

Section Termination.
Context `{PyLib}.
Variable W : world.

Lemma unstuck_main_run cmd : unstuck (main_run W cmd).
Proof.
  unfold main_run, sys_exit.
  repeat first [ apply unstuck_cmd_run | apply unstuck_install
               | unstuck_step ].
Qed.

(** Every run of [main] ends, and ends otherwise than by exhausting the
    unrolling of a prompt loop. *)
Theorem main_never_stuck (st : state) : fst (main W st) <> Raise Stuck.
Proof.
  unfold main, try_except_KeyboardInterrupt.
  pose proof (@unstuck_bind _ _ (main_cmd W) (main_run W)
                (unstuck_main_cmd W) unstuck_main_run st) as Hb.
  change (fun cmd : text => main_run W cmd) with (main_run W).
  destruct (bind (main_cmd W) (main_run W) st) as [[[]|[]] st'];
    try (simpl in *; first [discriminate | congruence]).
  unfold bind, rprint. destruct (markup_ok _); discriminate.
Qed.

End Termination.

(** * Sample runs

    The theorems above, applied to concrete invocations with the ASCII
    fragment of the library. *)

Ltac run := vm_compute; reflexivity.

Ltac no_flags :=
  let f := fresh "f" in
  let Hf := fresh "Hf" in
  let Ha := fresh "Ha" in
  intros f Hf Ha; vm_compute in Hf, Ha;
  repeat match goal with
         | H : _ \/ _ |- _ => destruct H
         | H : False |- _ => destruct H
         end;
  subst; discriminate.

(** ** Declined consent (C1) *)

(** The first run exits with code 2 and the user answers [n]; the program
    runs the command again and exits with code 1, the code of the second
    run. *)
Lemma decline_reruns_command_witness :
  @main ascii_lib decline_world decline_st0
  = (Raise (SystemExit 1), decline_st4)
  /\ spawns (trace decline_st4)
     = spawns (trace decline_st0) ++ [cmd_script_foo; cmd_script_foo].
Proof.
  apply (@decline_reruns_command ascii_lib decline_world decline_st0
           cmd_script_foo decline_st1 2 (decode_replace missing_3_13)
           decline_st2 (txt "3.13") decline_st3 1
           (decode_replace missing_3_13) decline_st4);
    solve [run | discriminate].
Defined.

(** ** Failed remediation (C4) *)

(** The first run exits with code 2, the user answers [y] and the install
    command exits with code 3: the program exits with code 3 after two
    processes. *)
Lemma remediation_failure_is_fatal_witness :
  @main ascii_lib failed_world failed_st0
  = (Raise (SystemExit 3),
     log (EPrint Stderr (failed_msg (txt "3.13"))) failed_st4)
  /\ spawns (trace (log (EPrint Stderr (failed_msg (txt "3.13")))
                        failed_st4))
     = spawns (trace failed_st0)
       ++ [cmd_script_foo; install_cmd (txt "3.13")].
Proof.
  apply (@remediation_failure_is_fatal ascii_lib failed_world failed_st0
           cmd_script_foo failed_st1 2 (decode_replace missing_3_13)
           failed_st2 (txt "3.13") failed_st3 3
           (decode_replace (list_byte_of_string "no network")) failed_st4);
    solve [run | discriminate].
Defined.

(** ** A retry that fails the same way (C5) *)

(** The retry prints the missing-interpreter message again; the program
    exits with the retry's code, having asked nothing more and spawned
    three processes in all. *)
Lemma at_most_one_remediation_and_retry_witness :
  @main ascii_lib retry_world retry_st0 = (Raise (SystemExit 2), retry_st4)
  /\ spawns (trace retry_st4)
     = [cmd_script_foo; install_cmd (txt "3.13"); cmd_script_foo]
  /\ @detect_missing_ver ascii_lib (decode_replace missing_3_13)
     = Some (txt "3.13").
Proof.
  split; [|split; run].
  apply (proj2 (@at_most_one_remediation_and_retry ascii_lib retry_world)
               retry_st0 cmd_script_foo retry_st1 2%Z
               (decode_replace missing_3_13) retry_st2 (txt "3.13")
               retry_st3 2%Z (decode_replace missing_3_13) retry_st4);
    solve [run | discriminate].
Defined.

(** ** A command that succeeds (C6) *)

(** The command exits with code 0: the program exits with code 0 after
    that one process. *)
Lemma exit_zero_is_final_witness :
  @main ascii_lib ok_world ok_st0 = (Raise (SystemExit 0), ok_st2)
  /\ spawns (trace ok_st2) = spawns (trace ok_st0) ++ [cmd_script_foo]
  /\ stdin ok_st2 = stdin ok_st1
  /\ exists chunks,
      trace ok_st2
      = trace ok_st1 ++ ESpawn cmd_script_foo :: map EWrite chunks.
Proof.
  apply (@exit_zero_is_final ascii_lib ok_world ok_st0 cmd_script_foo
           ok_st1 (decode_replace (list_byte_of_string "Initialized script"))
           ok_st2);
    run.
Defined.

(** ** Relay and capture (C2) *)

(** Two well-formed chunks are relayed as they are and captured as the
    text they encode. *)
Lemma capture_is_decoded_relay_witness :
  written (trace (snd (cmd_run (scripted [] [two_chunks]) (txt "echo")
                               (State [] 0 []))))
  = [list_byte_of_string "caf"; [xc3; xa9]]
  /\ fst (cmd_run (scripted [] [two_chunks]) (txt "echo") (State [] 0 []))
     = Ret (0%Z, [99; 97; 102; 233]%N)
  /\ utf8_encode [99; 97; 102; 233]%N = [99; 97; 102; 195; 169]%N.
Proof.
  destruct (capture_is_decoded_relay (scripted [] [two_chunks]) (txt "echo")
                                     (State [] 0 []))
    as [_ [Hw Hr]].
  split; [exact Hw|].
  destruct (Hr eq_refl) as [Hc He]. split; [exact Hc | exact (He eq_refl)].
Defined.

(** ** The classifier on the scenarios of the specification (C3) *)

Example detect_scenario_match :
  @detect_missing_ver ascii_lib scenario_match = Some (txt "3.12").
Proof. run. Qed.

Example detect_scenario_mismatch :
  @detect_missing_ver ascii_lib scenario_mismatch = None.
Proof. run. Qed.

(** The group is bound by backtracking: the fragment for 3.1 occurs inside
    the fragment for 3.12, so a second fragment naming 3.1 completes a
    match for 3.1. *)
Example detect_binds_by_backtracking :
  @detect_missing_ver ascii_lib
    (txt "No interpreter found for Python 3.12 ... A managed Python download is available ... use `uv python install 3.1`")
  = Some (txt "3.1").
Proof. run. Qed.

(** The text that names 3.12 and then 3.1 is classified as a match, for
    3.1. *)
Lemma longer_version_is_matched_witness :
  @is_version ascii_lib (txt "3.12")
  /\ txt "3.12" <> txt "3.1"
  /\ @detect_missing_ver ascii_lib
       (txt "No interpreter found for Python 3.12 ... A managed Python download is available ... use `uv python install 3.1`")
     = Some (txt "3.1").
Proof.
  destruct (@longer_version_is_matched ascii_lib (txt "3.1") 50%N []
              (txt " ... ") (txt " ... ") [])
    as [Hv [Hne [V HV]]].
  - exists (txt "3"), (txt "1"). split; [reflexivity|].
    split; [discriminate|]. split; [discriminate|].
    split; repeat constructor.
  - reflexivity.
  - split; [exact Hv|]. split; [exact Hne | run].
Defined.

(** ** The version prompt and the script scenario (C7) *)

(** Type [s], name [foo] and an empty answer. *)
Example script_scenario_foo :
  @main_cmd ascii_lib (scripted argv_script_foo []) (State [Line []] 0 [])
  = (Ret cmd_script_foo, State [] 0 [EPrompt version_prompt]).
Proof. run. Qed.

(** The answer [[/x]]: the program ends with [MarkupError] after the
    first prompt.  Two rejected answers whose message renders, followed
    by an accepted one, are asked about again. *)
Lemma rejected_answer_breaks_markup_witness :
  @get_ver ascii_lib (State [Line (txt "[/x]"); Line []] 0 [])
  = (Raise MarkupError, State [Line []] 0 [EPrompt version_prompt])
  /\ @main ascii_lib (scripted argv_script_foo [])
           (State [Line (txt "[/x]"); Line []] 0 [])
     = (Raise MarkupError, State [Line []] 0 [EPrompt version_prompt])
  /\ @get_ver ascii_lib
       (State [Line (txt "3.6"); Line (txt "python3"); Line (txt " 3.9 ")]
              0 [])
     = (Ret (txt "3.9"),
        State [] 0
              [EPrompt version_prompt;
               EPrint Stderr (invalid_version_msg (txt "3.6"));
               EPrompt version_prompt;
               EPrint Stderr (invalid_version_msg (txt "python3"));
               EPrompt version_prompt]).
Proof.
  destruct (@rejected_answer_breaks_markup ascii_lib) as [Hc [_ Hl]].
  destruct (Hc (State [Line (txt "[/x]"); Line []] 0 []) (txt "[/x]")
               [Line []] eq_refl) as [Hg Hm].
  { split; [vm_compute; discriminate|].
    vm_compute; intros Hin;
      repeat match goal with
             | H : _ \/ _ |- _ => destruct H
             | H : False |- _ => destruct H
             end; discriminate. }
  { reflexivity. }
  split; [exact Hg|]. split.
  - apply (Hm (scripted argv_script_foo []) (txt "uvi.py") (txt "s"));
      [reflexivity | right; reflexivity | no_flags].
  - apply (Hl (State [Line (txt "3.6"); Line (txt "python3");
                      Line (txt " 3.9 ")] 0 [])
              [txt "3.6"; txt "python3"] (txt " 3.9 ") []).
    + repeat constructor; try (vm_compute; discriminate);
        vm_compute; intros Hin;
        repeat match goal with
               | H : _ \/ _ |- _ => destruct H
               | H : False |- _ => destruct H
               end; discriminate.
    + repeat constructor.
    + right. vm_compute. tauto.
    + reflexivity.
Defined.

(** ** One positional argument (C8) *)

(** [uvi.py a] *)
Lemma missing_project_name_witness :
  @main ascii_lib (scripted [txt "uvi.py"; txt "a"] []) (State [] 0 [])
  = (Raise (SystemExit 2), State [] 0 [EPrint Stderr missing_name_msg]).
Proof.
  apply (@missing_project_name ascii_lib
           (scripted [txt "uvi.py"; txt "a"] []) (State [] 0 [])
           (txt "uvi.py") (txt "a"));
    [reflexivity | no_flags | left; vm_compute; tauto].
Defined.

(** ** Three positional arguments and a help flag (C9) *)

(** [uvi.py x y z --help] and [uvi.py -v 1bad] *)
Lemma flags_take_precedence_witness :
  @main ascii_lib
        (scripted [txt "uvi.py"; txt "x"; txt "y"; txt "z"; txt "--help"] [])
        (State [] 0 [])
  = (Raise (SystemExit 0), State [] 0 [EPrint Stdout HELP])
  /\ @main ascii_lib (scripted [txt "uvi.py"; txt "-v"; txt "1bad"] [])
           (State [] 0 [])
     = (Raise (SystemExit 0), State [] 0 [EPrint Stdout version_msg]).
Proof.
  split.
  - apply (proj1 (@flags_take_precedence ascii_lib
                    (scripted [txt "uvi.py"; txt "x"; txt "y"; txt "z";
                               txt "--help"] [])
                    (State [] 0 []))).
    right. simpl. tauto.
  - apply (proj2 (@flags_take_precedence ascii_lib
                    (scripted [txt "uvi.py"; txt "-v"; txt "1bad"] [])
                    (State [] 0 []))).
    + vm_compute. intros Hin.
      repeat match goal with
             | H : _ \/ _ |- _ => destruct H
             | H : False |- _ => destruct H
             end; discriminate.
    + vm_compute. intros Hin.
      repeat match goal with
             | H : _ \/ _ |- _ => destruct H
             | H : False |- _ => destruct H
             end; discriminate.
    + left. simpl. tauto.
Defined.

(** ** The default version (C10) *)

(** An empty line at the version prompt. *)
Lemma default_version_is_3_13_witness :
  @get_ver ascii_lib (State [Line []] 0 [])
  = (Ret (txt "3.13"), State [] 0 [EPrompt version_prompt]).
Proof.
  apply (@default_version_is_3_13 ascii_lib (State [Line []] 0 []) []).
  reflexivity.
Defined.

(** * Further properties *)

(** ** Argument parsing, case by case *)

Section ParseArgs.
Context `{PyLib}.
Variable W : world.

Lemma has_flag_false (args : list text) :
  has_flag args = false ->
  text_in (txt "-h") args || text_in (txt "--help") args = false
  /\ text_in (txt "-v") args || text_in (txt "--version") args = false.
Proof.
  unfold has_flag. intros E.
  repeat (apply orb_false_iff in E as [E ?]). rewrite E.
  repeat match goal with H : _ = false |- _ => rewrite H; clear H end.
  auto.
Qed.

(** The decision table of [parse_args] when no flag is present. *)
Lemma parse_args_table st :
  has_flag (argv W) = false ->
  parse_args W st =
  match argv W with
  | [] => (Raise IndexError, st)
  | [_] => usage_exit missing_args_msg st
  | [_; t] =>
      if type_ok t then usage_exit missing_name_msg st
      else usage_exit (invalid_type_msg t) st
  | [_; t; n] =>
      if type_ok t
      then if str_isidentifier n
           then (Ret (dict_get PROJ_TYPES t t, n), st)
           else usage_exit (invalid_name_msg n) st
      else usage_exit (invalid_type_msg t) st
  | _ :: _ :: _ :: _ :: _ => usage_exit too_many_args_msg st
  end.
Proof.
  intros Hf. destruct (has_flag_false _ Hf) as [Hh Hv].
  unfold parse_args. rewrite Hh, Hv.
  unfold sys_argv, type_ok, usage_exit, missing_args_msg, missing_name_msg,
    invalid_type_msg, invalid_name_msg, too_many_args_msg.
  destruct (argv W) as [|a [|t [|n [|x l]]]].
  - reflexivity.
  - unfold bind, ret, perr, rprint. cbn [List.length Z.of_nat Z.sub Z.eqb].
    destruct (markup_ok _); reflexivity.
  - cbn [List.length nth_error].
    unfold bind, ret, valid_proj_type, perr, rprint.
    cbn [Z.of_nat Pos.of_succ_nat Pos.succ Z.sub Z.add Z.opp Z.pos_sub
         Z.eqb Pos.eqb Z.succ_double Z.pred_double Z.double].
    rewrite <- negb_orb.
    destruct (dict_has PROJ_TYPES t || text_in t (map snd PROJ_TYPES));
      cbn [negb]; destruct (markup_ok _); reflexivity.
  - cbn [List.length nth_error].
    unfold bind, ret, valid_proj_type, valid_proj_name, perr, rprint.
    cbn [Z.of_nat Pos.of_succ_nat Pos.succ Z.sub Z.add Z.opp Z.pos_sub
         Z.eqb Pos.eqb Z.succ_double Z.pred_double Z.double].
    rewrite <- negb_orb.
    destruct (dict_has PROJ_TYPES t || text_in t (map snd PROJ_TYPES));
      cbn [negb]; [|destruct (markup_ok _); reflexivity].
    destruct (str_isidentifier n); cbn [negb]; [reflexivity|].
    destruct (markup_ok _); reflexivity.
  - set (argc := (Z.of_nat (List.length (a :: t :: n :: x :: l)) - 1)%Z).
    assert (3 <= argc)%Z as Hc by (subst argc; cbn [List.length]; lia).
    destruct (Z.eqb_spec argc 0); [lia|].
    destruct (Z.eqb_spec argc 1); [lia|].
    destruct (Z.eqb_spec argc 2); [lia|].
    assert ((argc >? 2)%Z = true) as -> by (apply Z.gtb_lt; lia).
    unfold bind, ret, perr, rprint. destruct (markup_ok _); reflexivity.
Qed.

Lemma has_flag_true (args : list text) :
  has_flag args = true ->
  (In (txt "-h") args \/ In (txt "--help") args)
  \/ (~ In (txt "-h") args /\ ~ In (txt "--help") args
      /\ (In (txt "-v") args \/ In (txt "--version") args)).
Proof.
  unfold has_flag. intros E.
  destruct (text_in (txt "-h") args) eqn:E1;
    [left; left; apply text_in_In; assumption|].
  destruct (text_in (txt "--help") args) eqn:E2;
    [left; right; apply text_in_In; assumption|].
  right. split; [|split].
  - intros Hin. apply text_in_In in Hin. congruence.
  - intros Hin. apply text_in_In in Hin. congruence.
  - simpl in E. apply orb_true_iff in E. rewrite !text_in_In in E. exact E.
Qed.

Lemma parse_args_flagged st :
  has_flag (argv W) = true ->
  exists m, parse_args W st = (Raise (SystemExit 0), log (EPrint Stdout m) st).
Proof.
  intros E. destruct (has_flag_true _ E) as [Hh | [H1 [H2 Hv]]].
  - exists HELP. apply parse_args_help; assumption.
  - exists version_msg. apply parse_args_version; assumption.
Qed.

Lemma type_ok_valid (t : text) : type_ok t = true <-> valid_type t.
Proof.
  unfold type_ok, valid_type, dict_has.
  rewrite orb_true_iff, !text_in_In. tauto.
Qed.

Lemma dict_get_long (t : text) :
  type_ok t = true -> In (dict_get PROJ_TYPES t t) (map snd PROJ_TYPES).
Proof.
  intros Ht. apply type_ok_valid in Ht. destruct Ht as [Hk | Hv].
  - simpl in Hk.
    repeat match goal with
           | H : _ \/ _ |- _ => destruct H
           | H : False |- _ => destruct H
           end; subst; vm_compute; tauto.
  - simpl in Hv.
    repeat match goal with
           | H : _ \/ _ |- _ => destruct H
           | H : False |- _ => destruct H
           end; subst; vm_compute; tauto.
Qed.

Lemma parse_args_Ret st pt pn st' :
  parse_args W st = (Ret (pt, pn), st') ->
  st' = st
  /\ has_flag (argv W) = false
  /\ (exists prog t,
        argv W = [prog; t; pn] /\ valid_type t
        /\ pt = dict_get PROJ_TYPES t t)
  /\ In pt (map snd PROJ_TYPES)
  /\ str_isidentifier pn = true.
Proof.
  intros E. destruct (has_flag (argv W)) eqn:Hf.
  { destruct (parse_args_flagged st Hf) as [m Em]. congruence. }
  rewrite (parse_args_table st Hf) in E. unfold usage_exit in E.
  destruct (argv W) as [|a [|t [|n [|x l]]]]; try discriminate;
    repeat match type of E with
           | context [if ?b then _ else _] => destruct b eqn:?
           end;
    try discriminate.
  - rename Heqb into Ht. rename Heqb0 into Hn.
    injection E as <- <- <-.
    split; [reflexivity|]. split; [reflexivity|]. split.
    + exists a, t. split; [reflexivity|]. split; [|reflexivity].
      apply type_ok_valid; assumption.
    + split; [apply dict_get_long; assumption | assumption].
Qed.


(** X1: whatever [parse_args] returns has been validated.  It returns only
    when there is no help or version flag and exactly two positional
    arguments, a project type that is a short code or a long name and a
    name that is an identifier; the type it returns is always the long
    name, the name is the last argument, and nothing has been printed,
    read or spawned. *)
Theorem parse_args_returns_validated st pt pn st' :
  parse_args W st = (Ret (pt, pn), st') ->
  st' = st
  /\ has_flag (argv W) = false
  /\ (exists prog t,
        argv W = [prog; t; pn] /\ valid_type t
        /\ pt = dict_get PROJ_TYPES t t)
  /\ In pt (map snd PROJ_TYPES)
  /\ str_isidentifier pn = true.
Proof. apply parse_args_Ret. Qed.




End ParseArgs.

(** ** What the prompts return *)


Lemma returns_raise {A} (e : exn) (P : A -> Prop) : returns (raise e) P.
Proof. intros st a st' E. discriminate E. Qed.

Lemma returns_while {S A} (body : S -> M (A + S)) (P : A -> Prop) :
  (forall s, returns (body s)
                     (fun r => match r with inl a => P a | inr _ => True end)) ->
  forall fuel s, returns (while_true fuel body s) P.
Proof.
  intros Hb fuel; induction fuel as [|fuel IH]; intros s; simpl.
  - apply returns_raise.
  - intros st a st'. unfold bind.
    destruct (body s st) as [[[b|s']|e] st1] eqn:E; [| |discriminate].
    + intros R; injection R as <- _. exact (Hb s st (inl b) st1 E).
    + apply IH.
Qed.

Section PromptResults.
Context `{PyLib}.

Lemma default_supported : In DEFAULT_VERSION supported_versions.
Proof. apply text_in_In. reflexivity. Qed.

Lemma get_ver_Ret (st : state) (ver : text) (st' : state) :
  get_ver st = (Ret ver, st') -> In ver supported_versions.
Proof.
  revert st ver st'.
  change (returns get_ver (fun ver => In ver supported_versions)).
  intros st. unfold get_ver. revert st.
  change (returns (fun st => while_true (S (List.length (stdin st)))
                                        get_ver_body tt st)
                  (fun ver => In ver supported_versions)).
  intros st ver st'.
  apply (returns_while get_ver_body (fun ver => In ver supported_versions)).
  clear. intros [] st r st'. unfold get_ver_body, bind.
  destruct (inp _ _ st) as [[a|e] st1]; [|discriminate].
  destruct (text_eqb (str_lower a) []).
  { change (py3_support (-2)) with (@ret Z 13%Z). unfold ret.
    intros R; injection R as <- _. apply default_supported. }
  destruct (text_in (str_lower a) supported_versions) eqn:Hin.
  { unfold ret. intros R; injection R as <- _. apply text_in_In; assumption. }
  change (py3_support 0) with (@ret Z 7%Z).
  change (py3_support (-1)) with (@ret Z 14%Z).
  unfold ret, perr, rprint. destruct (markup_ok _); [|discriminate].
  intros R; injection R as <- _. exact I.
Qed.

(** X3: [get_ver] only ever returns a supported version: whatever is typed,
    and however many answers are rejected first, the version it returns
    is one of 3.7 to 3.14. *)
Theorem get_ver_returns_supported (st : state) (ver : text) (st' : state) :
  get_ver st = (Ret ver, st') ->
  In ver [txt "3.7"; txt "3.8"; txt "3.9"; txt "3.10"; txt "3.11";
          txt "3.12"; txt "3.13"; txt "3.14"].
Proof. apply get_ver_Ret. Qed.

End PromptResults.

(** ** The command [main] assembles *)

Section AssembledCommand.
Context `{PyLib}.
Variable W : world.

(** X4: whatever command [main] assembles, it names the project by an
    identifier taken from the command line, the project type by its long
    name and a supported version; for a script there is nothing more, and
    for the other types the description is the [repr] of a stripped line
    of input, the version control system is ['git'] or ['none'] and the
    last flag is empty or [--no-readme]. *)
Theorem assembled_command_shape st cmd st1 :
  main_cmd W st = (Ret cmd, st1) ->
  exists pt pn ver,
    In pt (map snd PROJ_TYPES)
    /\ nth_error (argv W) 2 = Some pn
    /\ str_isidentifier pn = true
    /\ In ver supported_versions
    /\ ((pt = txt "script" /\ cmd = init_cmd pn pt ver)
        \/ (pt <> txt "script"
            /\ exists l vcs readme_flag,
                cmd = init_cmd pn pt ver +++ txt " --description "
                      +++ py_repr (strip l) +++ txt " --vcs " +++ vcs
                      +++ txt " " +++ readme_flag
                /\ (vcs = txt "'git'" \/ vcs = txt "'none'")
                /\ (readme_flag = [] \/ readme_flag = txt "--no-readme"))).
Proof.
  unfold main_cmd. unfold bind at 1.
  destruct (parse_args W st) as [[[pt pn]|e] st0] eqn:Ep; [|discriminate].
  apply parse_args_Ret in Ep
    as (-> & _ & (prog & t & Ha & _ & _) & Hin & Hid).
  cbn [fst snd]. unfold bind at 1.
  destruct (get_ver st) as [[ver|e] st2] eqn:Ev; [|discriminate].
  apply get_ver_Ret in Ev.
  intros R. exists pt, pn, ver.
  split; [assumption|]. split; [rewrite Ha; reflexivity|].
  split; [assumption|]. split; [assumption|].
  destruct (text_eqb pt (txt "script")) eqn:Es.
  - left. apply text_eqb_eq in Es. injection R as <- _.
    split; [assumption | reflexivity].
  - right. split.
    { intros ->. rewrite text_eqb_refl in Es; discriminate. }
    revert R. unfold get_desc, get_vcs, get_rm, bind.
    destruct (inp (txt "desc") None st2) as [[a|e] st3] eqn:Ed;
      [|discriminate].
    apply inp_Ret in Ed as [l [-> _]]. unfold ret at 1.
    destruct (yn_inp (txt "vcs") st3) as [[v|e] st4]; [|discriminate].
    destruct (yn_inp (txt "readme") st4) as [[r|e] st5]; [|discriminate].
    intros R; injection R as <- _.
    exists l, (if v then txt "'git'" else txt "'none'"),
           (if r then [] else txt "--no-readme").
    split; [unfold init_cmd; rewrite <- !app_assoc; reflexivity|].
    split; [destruct v; auto | destruct r; auto].
Qed.

End AssembledCommand.

(** ** The yes/no prompt *)

Section YesNo.
Context `{PyLib}.

Lemma yn_inp_body_Line p err st l more :
  stdin st = Line l :: more ->
  yn_inp_body p err st =
  (Ret (match yn_answer l with
        | Some b => inl b
        | None => inr YN_MARKER
        end),
   State more (spawned st) (trace st ++ [EPrompt (yn_prompt p err)])).
Proof.
  intros E. unfold yn_inp_body.
  rewrite (bind_Ret _ _ _ (inp_Line _ _ _ E)).
  unfold yn_answer. fold (normalize l).
  destruct (text_in (normalize l) [txt "yes"; txt "y"]); [reflexivity|].
  destruct (text_in (normalize l) [txt "no"; txt "n"]); reflexivity.
Qed.

Lemma yn_loop_step p err st l more :
  stdin st = Line l :: more ->
  yn_loop p err st =
  match yn_answer l with
  | Some b =>
      (Ret b,
       State more (spawned st) (trace st ++ [EPrompt (yn_prompt p err)]))
  | None =>
      yn_loop p YN_MARKER
              (State more (spawned st)
                     (trace st ++ [EPrompt (yn_prompt p err)]))
  end.
Proof.
  intros E. unfold yn_loop at 1. rewrite E. simpl List.length.
  cbn [while_true]. unfold bind at 1. rewrite (yn_inp_body_Line _ _ _ E).
  destruct (yn_answer l); reflexivity.
Qed.

Lemma yn_loop_until_answer bad : forall p err st good b more,
  Forall (fun l => yn_answer l = None) bad -> yn_answer good = Some b ->
  stdin st = map Line bad ++ Line good :: more ->
  yn_loop p err st
  = (Ret b,
     State more (spawned st)
           (trace st ++ yn_prompts p err (List.length bad))).
Proof.
  induction bad as [|l bad IH]; intros p err st good b more Hb Hg E;
    simpl in E.
  - rewrite (yn_loop_step _ _ _ E), Hg. reflexivity.
  - inversion Hb as [|? ? Hl Hb']; subst.
    rewrite (yn_loop_step _ _ _ E), Hl.
    rewrite (IH p YN_MARKER
                (State (map Line bad ++ Line good :: more) (spawned st)
                       (trace st ++ [EPrompt (yn_prompt p err)]))
                good b more Hb' Hg eq_refl). simpl.
    unfold yn_prompts. rewrite <- app_assoc. reflexivity.
Qed.

Lemma yn_inp_Line p st l b more :
  stdin st = Line l :: more -> yn_answer l = Some b ->
  yn_inp p st
  = (Ret b,
     State more (spawned st) (trace st ++ [EPrompt (yn_prompt p [])])).
Proof.
  intros E Hl. change (yn_inp p st) with (yn_loop p [] st).
  rewrite (yn_loop_step _ _ _ E), Hl. reflexivity.
Qed.

(** X5: [yn_inp] asks until it is answered: every line that is neither yes nor
    no, once stripped and lowered, is consumed without any message, the
    question is put again with the marker in front, and the first line
    that is a yes or a no decides the result. *)
Theorem yn_inp_asks_until_answered p st bad good b more :
  Forall (fun l => yn_answer l = None) bad ->
  yn_answer good = Some b ->
  stdin st = map Line bad ++ Line good :: more ->
  yn_inp p st
  = (Ret b,
     State more (spawned st)
           (trace st ++ yn_prompts p [] (List.length bad))).
Proof.
  intros Hb Hg E. change (yn_inp p st) with (yn_loop p [] st).
  apply yn_loop_until_answer with (good := good); assumption.
Qed.

End YesNo.

(** ** The prompts of a project that is not a script *)

Section ProjectPrompts.
Context `{PyLib}.
Variable W : world.

Lemma get_desc_Line st l more :
  stdin st = Line l :: more ->
  get_desc st
  = (Ret (py_repr (strip l)),
     State more (spawned st) (trace st ++ [EPrompt desc_prompt])).
Proof.
  intros E. unfold get_desc. rewrite (bind_Ret _ _ _ (inp_Line _ _ _ E)).
  reflexivity.
Qed.

(** X6: for a project that is not a script the four questions are asked in the
    order version, description, version control, readme, one line of
    input each when the answers are acceptable, and the command is built
    from the four answers. *)
Theorem project_prompts_in_order st prog t pn lv ld lvcs lrm bv br more :
  has_flag (argv W) = false ->
  argv W = [prog; t; pn] ->
  type_ok t = true ->
  str_isidentifier pn = true ->
  dict_get PROJ_TYPES t t <> txt "script" ->
  valid_answer lv ->
  yn_answer lvcs = Some bv ->
  yn_answer lrm = Some br ->
  stdin st = Line lv :: Line ld :: Line lvcs :: Line lrm :: more ->
  main_cmd W st
  = (Ret (init_cmd pn (dict_get PROJ_TYPES t t) (resolve lv)
          +++ txt " --description " +++ py_repr (strip ld)
          +++ txt " --vcs " +++ (if bv then txt "'git'" else txt "'none'")
          +++ txt " " +++ (if br then [] else txt "--no-readme")),
     State more (spawned st)
           (trace st ++ [EPrompt version_prompt; EPrompt desc_prompt;
                         EPrompt (yn_prompt (txt "vcs") []);
                         EPrompt (yn_prompt (txt "readme") [])])).
Proof.
  intros Hf Ha Ht Hn Hs Hv Hvcs Hrm E.
  assert (parse_args W st = (Ret (dict_get PROJ_TYPES t t, pn), st)) as Ep.
  { rewrite (parse_args_table W st Hf), Ha, Ht, Hn. reflexivity. }
  unfold main_cmd. rewrite (bind_Ret _ _ _ Ep). cbn [fst snd].
  rewrite (bind_Ret _ _ _ (get_ver_valid _ E Hv)).
  assert (text_eqb (dict_get PROJ_TYPES t t) (txt "script") = false) as ->.
  { destruct (text_eqb _ _) eqn:Es; [|reflexivity].
    apply text_eqb_eq in Es. contradiction. }
  set (st1 := prompted st (Line ld :: Line lvcs :: Line lrm :: more)).
  set (st2 := State (Line lvcs :: Line lrm :: more) (spawned st1)
                    (trace st1 ++ [EPrompt desc_prompt])).
  set (st3 := State (Line lrm :: more) (spawned st2)
                    (trace st2 ++ [EPrompt (yn_prompt (txt "vcs") [])])).
  rewrite (bind_Ret _ _ _ (@get_desc_Line st1 ld _ eq_refl)).
  unfold get_vcs, get_rm.
  rewrite (bind_Ret _ _ _ (@yn_inp_Line _ (txt "vcs") st2 lvcs bv _
                                        eq_refl Hvcs)).
  rewrite (bind_Ret _ _ _ (@yn_inp_Line _ (txt "readme") st3 lrm br _
                                        eq_refl Hrm)).
  unfold ret, init_cmd, st3, st2, st1, prompted. cbn [stdin spawned trace].
  rewrite <- !app_assoc. reflexivity.
Qed.

End ProjectPrompts.

(** ** How [main] ends *)

Section Outcomes.
Context `{PyLib}.
Variable W : world.

Lemma main_body_interrupt st st' :
  bind (main_cmd W) (main_run W) st = (Raise KeyboardInterrupt, st') ->
  main W st
  = (Raise (SystemExit 130), log (EPrint Stdout stopped_msg) st').
Proof.
  intros E. unfold main, try_except_KeyboardInterrupt.
  change (fun cmd : text => main_run W cmd) with (main_run W).
  rewrite E. unfold bind, rprint. fold stopped_msg.
  rewrite stopped_markup_ok. reflexivity.
Qed.









(** X9: Ctrl-C while the output of the assembled command is being read: what
    was read before is still relayed, the exit code of the child is not
    looked at, and the program prints the stopped message and exits with
    code 130. *)
Theorem interrupt_during_command st cmd st1 :
  main_cmd W st = (Ret cmd, st1) ->
  interrupted (reads (popen W (spawned st1) cmd)) = true ->
  main W st
  = (Raise (SystemExit 130),
     State (stdin st1) (S (spawned st1))
           (trace st1
            ++ ESpawn cmd
               :: map EWrite (relayed (reads (popen W (spawned st1) cmd)))
            ++ [EPrint Stdout stopped_msg])).
Proof.
  intros E0 Hi.
  rewrite (@main_body_interrupt st
             (State (stdin st1) (S (spawned st1))
                (trace st1
                 ++ ESpawn cmd
                    :: map EWrite
                         (relayed (reads (popen W (spawned st1) cmd)))))).
  - unfold log. cbn [stdin spawned trace]. rewrite <- app_assoc.
    reflexivity.
  - rewrite (bind_Ret _ _ _ E0). apply main_run_interrupted.
    rewrite cmd_run_spec. cbv zeta. rewrite Hi. reflexivity.
Qed.

(** X10: a failure that is not classified as a missing interpreter is final:
    the program exits with the code of the command in the state the run
    left, without asking anything and without a second process. *)
Theorem unclassified_failure_is_final st cmd st1 code out st2 :
  main_cmd W st = (Ret cmd, st1) ->
  cmd_run W cmd st1 = (Ret (code, out), st2) ->
  detect_missing_ver out = None ->
  main W st = (Raise (SystemExit code), st2)
  /\ spawns (trace st2) = spawns (trace st) ++ [cmd]
  /\ stdin st2 = stdin st1.
Proof.
  intros E0 E1 Hd. split; [|split].
  - apply main_body_exit. rewrite (bind_Ret _ _ _ E0).
    apply (main_run_unrecovered _ _ _ E1). rewrite Hd. apply orb_true_r.
  - pose proof (cmd_run_spawns W cmd st1) as H1. rewrite E1 in H1.
    pose proof (quiet_main_cmd W st) as [H0 _]. rewrite E0 in H0.
    simpl in *. congruence.
  - rewrite cmd_run_spec in E1. injection E1 as _ <-. reflexivity.
Qed.

(** X11: a remediation that succeeds: after a yes and an install command that
    exits with code 0, the program announces the retry, runs the assembled
    command once more and exits with the code of that run; three
    processes are spawned in all. *)
Theorem successful_remediation_retries
        st cmd st1 code out st2 v st3 iout st4 code' out' st5 :
  main_cmd W st = (Ret cmd, st1) ->
  cmd_run W cmd st1 = (Ret (code, out), st2) ->
  code <> 0%Z ->
  detect_missing_ver out = Some v ->
  yn_inp (install_prompt v) st2 = (Ret true, st3) ->
  cmd_run W (install_cmd v) (log (EPrint Stderr (installing_msg v)) st3)
  = (Ret (0%Z, iout), st4) ->
  cmd_run W cmd (log (EPrint Stderr retrying_msg) st4)
  = (Ret (code', out'), st5) ->
  main W st = (Raise (SystemExit code'), st5)
  /\ spawns (trace st5) = spawns (trace st) ++ [cmd; install_cmd v; cmd].
Proof.
  intros E0 E1 Hc Hd Ey E2 E3. split.
  - apply main_body_exit. rewrite (bind_Ret _ _ _ E0).
    rewrite (main_run_recovering _ _ _ E1 Hc Hd (detect_truthy _ Hd)).
    rewrite (@install_accepted_version _ W v _ _
               (proj1 (detect_sound _ Hd)) Ey), E2. cbn [Z.eqb]. rewrite E3.
    reflexivity.
  - pose proof (quiet_main_cmd W st) as [H0 _]. rewrite E0 in H0.
    pose proof (cmd_run_spawns W cmd st1) as H1. rewrite E1 in H1.
    pose proof (quiet_yn_inp (install_prompt v) st2) as [H2 _].
    rewrite Ey in H2.
    pose proof (cmd_run_spawns W (install_cmd v)
                  (log (EPrint Stderr (installing_msg v)) st3)) as H3.
    rewrite E2 in H3.
    pose proof (cmd_run_spawns W cmd (log (EPrint Stderr retrying_msg) st4))
      as H4.
    rewrite E3 in H4. simpl in *.
    rewrite H4, spawns_app, H3, spawns_app, H2, H1, H0; simpl.
    rewrite !app_nil_r, <- !app_assoc. reflexivity.
Qed.

End Outcomes.

(** ** Every way the program ends *)






Lemma returns_bind_post {A B} (c : M A) (k : A -> M B) (Q : A -> Prop)
      (P : B -> Prop) :
  returns c Q -> (forall a, Q a -> returns (k a) P) -> returns (bind c k) P.
Proof.
  intros Hq Hk st b st'. unfold bind.
  destruct (c st) as [[a|e] st1] eqn:E; [|discriminate].
  apply Hk. exact (Hq _ _ _ E).
Qed.

Section Endings.
Context `{PyLib}.
Variable W : world.














End Endings.

(** ** The commands handed to the shell *)

Lemma spawns_only_quiet {A} (c : M A) (P : text -> Prop) :
  quiet c -> spawns_only c P.
Proof.
  intros Hq st. exists []. rewrite app_nil_r.
  split; [apply Hq | constructor].
Qed.

Lemma spawns_only_bind {A B} (c : M A) (k : A -> M B) (P : text -> Prop) :
  spawns_only c P -> (forall a, spawns_only (k a) P) ->
  spawns_only (bind c k) P.
Proof.
  intros Hc Hk st. unfold bind. destruct (Hc st) as [c1 [H1 F1]].
  destruct (c st) as [[a|e] st1]; simpl in *.
  - destruct (Hk a st1) as [c2 [H2 F2]]. exists (c1 ++ c2).
    rewrite H2, H1, app_assoc. split; [reflexivity|].
    apply Forall_app; auto.
  - exists c1. auto.
Qed.

Section ShellCommands.
Context `{PyLib}.
Variable W : world.

Lemma spawns_only_cmd_run cmd (P : text -> Prop) :
  P cmd -> spawns_only (cmd_run W cmd) P.
Proof.
  intros Hp st. exists [cmd]. split; [apply cmd_run_spawns | auto].
Qed.

Lemma spawns_only_install v (P : text -> Prop) :
  P (install_cmd v) -> spawns_only (install_missing_ver W v) P.
Proof.
  intros Hp. unfold install_missing_ver.
  apply spawns_only_bind;
    [apply spawns_only_quiet, quiet_yn_inp | intros [|]];
    [|apply spawns_only_quiet, quiet_ret].
  apply spawns_only_bind; [apply spawns_only_quiet, quiet_rprint | intro].
  apply spawns_only_bind; [apply spawns_only_cmd_run; exact Hp | intro].
  apply spawns_only_quiet. unfold perr, sys_exit. repeat quiet_step.
Qed.

Lemma spawns_only_main_run cmd (P : text -> Prop) :
  P cmd -> (forall v, is_version v -> P (install_cmd v)) ->
  spawns_only (main_run W cmd) P.
Proof.
  intros Hp Hv. unfold main_run.
  apply spawns_only_bind; [apply spawns_only_cmd_run; exact Hp | intros r].
  apply spawns_only_bind;
    [|intro; apply spawns_only_quiet, quiet_raise].
  destruct (negb _); [|apply spawns_only_quiet, quiet_ret].
  cbv zeta. destruct (detect_missing_ver (snd r)) as [v|] eqn:Hd;
    [|apply spawns_only_quiet, quiet_ret].
  destruct (truthy (Some v)); [|apply spawns_only_quiet, quiet_ret].
  apply detect_sound in Hd as [Hver _].
  apply spawns_only_bind; [apply spawns_only_install, Hv, Hver | intro].
  apply spawns_only_bind; [apply spawns_only_cmd_run; exact Hp | intro].
  apply spawns_only_quiet, quiet_ret.
Qed.

(** X13: the only commands the program hands to the shell are the command it
    assembled from the validated arguments and answers, and
    [uv python install V] for a version [V] made of digits, a dot and
    digits: no other text of a child's output reaches a command line. *)
Theorem spawned_commands_are_intended st :
  exists cmds,
    spawns (trace (snd (main W st))) = spawns (trace st) ++ cmds
    /\ Forall (fun c =>
                 (exists st1, main_cmd W st = (Ret c, st1))
                 \/ (exists v, is_version v /\ c = install_cmd v))
              cmds.
Proof.
  rewrite main_spawns_body. unfold bind.
  pose proof (quiet_main_cmd W st) as [H0 _].
  destruct (main_cmd W st) as [[cmd|e] st1] eqn:E0; simpl in H0.
  - destruct (@spawns_only_main_run cmd
                (fun c =>
                   (exists st2, (Ret cmd, st1) = (@Ret text c, st2))
                   \/ (exists v, is_version v /\ c = install_cmd v)))
      with (st := st1) as [cmds [Hs HF]].
    + left. exists st1. reflexivity.
    + intros v Hv. right. exists v. auto.
    + exists cmds. rewrite Hs, H0. auto.
  - exists []. simpl. rewrite app_nil_r. auto.
Qed.

(** X14: the read loop of [cmd_run] ends normally at the first empty read, at
    the first [OSError] or at end of file: the chunks read before are
    relayed and captured, whatever the child would have written later is
    ignored, standard input is left untouched and the result carries the
    exit code of the child. *)
Theorem cmd_run_reads_until_end cmd st chunks tail :
  reads (popen W (spawned st) cmd) = map ReadData chunks ++ tail ->
  Forall (fun c => c <> []) chunks ->
  ends_output tail ->
  cmd_run W cmd st
  = (Ret (returncode (popen W (spawned st) cmd),
          List.concat (map decode_replace chunks)),
     State (stdin st) (S (spawned st))
           (trace st ++ ESpawn cmd :: map EWrite chunks)).
Proof.
  intros E Hc Ht. rewrite cmd_run_spec. cbv zeta. rewrite E.
  assert (relayed (map ReadData chunks ++ tail) = chunks
          /\ interrupted (map ReadData chunks ++ tail) = false) as [-> ->].
  { clear E. induction Hc as [|c chunks Hne _ [IH1 IH2]]; simpl.
    - destruct tail as [|[[|b d]| |] tail']; simpl in *; tauto.
    - destruct c as [|b d]; [congruence|]. rewrite IH1, IH2. auto. }
  reflexivity.
Qed.

End ShellCommands.

(** ** What the decoder yields *)

Lemma utf8_items_app_bounded n : forall a b,
  List.length a <= n ->
  well_formed_utf8 a = true ->
  utf8_items (a ++ b) = utf8_items a ++ utf8_items b.
Proof.
  induction n as [|n IH]; intros a b Hlen.
  - destruct a; [reflexivity | simpl in Hlen; lia].
  - destruct a as [|b1 t1]; [reflexivity|].
    unfold well_formed_utf8. cbn [app utf8_items].
    repeat match goal with
           | |- context [if ?c then _ else _] => destruct c eqn:?
           | |- context [match ?l with [] => _ | _ :: _ => _ end] =>
               is_var l; destruct l; cbn [app]
           end;
      cbn [forallb andb app];
      try (intros; discriminate);
      intros Hwf;
      repeat (apply (f_equal2 (@cons (option codepoint))); [reflexivity|]);
      apply IH; first [exact Hwf | cbn [List.length] in Hlen; lia].
Qed.

Lemma decode_replace_app (a b : bytes) :
  well_formed_utf8 a = true ->
  decode_replace (a ++ b) = decode_replace a +++ decode_replace b.
Proof.
  intros Hw. unfold decode_replace.
  rewrite (@utf8_items_app_bounded (List.length a) a b (le_n _) Hw).
  apply map_app.
Qed.

Lemma decode_replace_concat (chunks : list bytes) :
  forallb well_formed_utf8 chunks = true ->
  List.concat (map decode_replace chunks)
  = decode_replace (List.concat chunks).
Proof.
  induction chunks as [|c chunks IH]; simpl; [reflexivity|].
  intros Hw. apply andb_true_iff in Hw as [Hc Hw].
  rewrite (@decode_replace_app c _ Hc), (IH Hw). reflexivity.
Qed.

Lemma decode_scalar_bounded n : forall bs,
  List.length bs <= n -> Forall scalar_value (decode_replace bs).
Proof.
  induction n as [|n IH]; intros bs Hlen.
  - destruct bs; [constructor | simpl in Hlen; lia].
  - destruct bs as [|b1 t1]; [constructor|].
    unfold decode_replace. cbn [utf8_items].
    repeat match goal with
           | |- context [if ?c then _ else _] => destruct c eqn:?
           | |- context [match ?l with [] => _ | _ :: _ => _ end] =>
               is_var l; destruct l
           end;
      cbn [map item_or_replacement];
      try (constructor; [unfold scalar_value, REPLACEMENT; boolp; lia|]);
      match goal with
      | |- Forall _ [] => constructor
      | |- Forall _ (map _ (utf8_items ?l)) =>
          change (Forall scalar_value (decode_replace l));
          apply IH; cbn [List.length] in *; lia
      end.
Qed.

(** X15: when every chunk read from the child is well-formed UTF-8 on its own,
    the text [cmd_run] returns is the decoding of the whole output: how
    the output was cut into chunks does not show. *)
Theorem capture_ignores_chunking (W : world) (cmd : text) (st : state) :
  let proc := popen W (spawned st) cmd in
  let chunks := relayed (reads proc) in
  interrupted (reads proc) = false ->
  forallb well_formed_utf8 chunks = true ->
  fst (cmd_run W cmd st)
  = Ret (returncode proc, decode_replace (List.concat chunks)).
Proof.
  cbv zeta. intros Hi Hw. rewrite cmd_run_spec. cbv zeta. rewrite Hi.
  cbn [fst]. rewrite (decode_replace_concat _ Hw). reflexivity.
Qed.

(** X16: whatever bytes the child writes, the text [cmd_run] returns holds
    Unicode scalar values only: no surrogate and nothing above U+10FFFF
    comes out of the decoder. *)
Theorem captured_text_is_scalar (W : world) (cmd : text) (st : state)
        (code : Z) (out : text) (st' : state) :
  cmd_run W cmd st = (Ret (code, out), st') ->
  Forall scalar_value out.
Proof.
  rewrite cmd_run_spec. cbv zeta.
  destruct (interrupted _); [discriminate|].
  intros R; injection R as _ <- _.
  induction (relayed _) as [|c chunks IH]; simpl; [constructor|].
  apply Forall_app. split; [|exact IH].
  apply (@decode_scalar_bounded (List.length c)). apply le_n.
Qed.

(** ** Short codes and long names *)

Section TypeNames.
Context `{PyLib}.

Lemma has_flag_type prog k v n :
  In (k, v) PROJ_TYPES ->
  (text_in (txt "-h") [prog; k; n] || text_in (txt "--help") [prog; k; n]
   = text_in (txt "-h") [prog; v; n] || text_in (txt "--help") [prog; v; n])
  /\ (text_in (txt "-v") [prog; k; n]
      || text_in (txt "--version") [prog; k; n]
      = text_in (txt "-v") [prog; v; n]
        || text_in (txt "--version") [prog; v; n]).
Proof.
  intros Hin. simpl in Hin.
  repeat match goal with
         | H : _ \/ _ |- _ => destruct H
         | H : False |- _ => destruct H
         | H : (_, _) = (_, _) |- _ => injection H as <- <-
         end;
    split; reflexivity.
Qed.

Lemma parse_args_type_name W1 W2 prog k v n st :
  In (k, v) PROJ_TYPES ->
  argv W1 = [prog; k; n] -> argv W2 = [prog; v; n] ->
  parse_args W1 st = parse_args W2 st.
Proof.
  intros Hin E1 E2. destruct (has_flag_type prog n Hin) as [Hh Hv].
  unfold parse_args, sys_argv. rewrite E1, E2, Hh, Hv.
  destruct (text_in (txt "-h") [prog; v; n]
            || text_in (txt "--help") [prog; v; n]).
  { unfold bind, rprint. rewrite help_markup_ok. reflexivity. }
  destruct (text_in (txt "-v") [prog; v; n]
            || text_in (txt "--version") [prog; v; n]).
  { unfold bind, ret, rprint. fold version_msg.
    rewrite version_msg_markup_ok. reflexivity. }
  simpl in Hin.
  repeat match goal with
         | H : _ \/ _ |- _ => destruct H
         | H : False |- _ => destruct H
         | H : (_, _) = (_, _) |- _ => injection H as <- <-
         end;
    reflexivity.
Qed.

(** X17: a project type can be given by its short code or by its long name:
    with the same children, the two invocations behave alike in every
    respect, whatever the name and the answers are. *)
Theorem short_code_same_as_long_name W1 W2 prog k v n st :
  In (k, v) PROJ_TYPES ->
  argv W1 = [prog; k; n] ->
  argv W2 = [prog; v; n] ->
  popen W1 = popen W2 ->
  main W1 st = main W2 st.
Proof.
  intros Hin E1 E2 Ep.
  pose proof (parse_args_type_name W1 W2 st Hin E1 E2) as Hp.
  destruct W1 as [a1 p1], W2 as [a2 p2]. simpl in Ep. subst p2.
  unfold main, try_except_KeyboardInterrupt, main_cmd.
  assert (forall (f : text * text -> M text) (r : text -> M unit),
             bind (bind (parse_args (World a1 p1)) f) r st
             = bind (bind (parse_args (World a2 p1)) f) r st) as Hb.
  { intros f r. unfold bind. rewrite Hp. reflexivity. }
  rewrite Hb. reflexivity.
Qed.

End TypeNames.

(** * Further sample runs *)


(** [uvi.py s foo]: the arguments are accepted as they are. *)
Lemma parse_args_returns_validated_witness :
  State [] 0 [] = State [] 0 []
  /\ has_flag argv_script_foo = false
  /\ (exists prog t,
        argv_script_foo = [prog; t; txt "foo"] /\ valid_type t
        /\ txt "script" = dict_get PROJ_TYPES t t)
  /\ In (txt "script") (map snd PROJ_TYPES)
  /\ @str_isidentifier ascii_lib (txt "foo") = true.
Proof.
  apply (@parse_args_returns_validated ascii_lib
           (scripted argv_script_foo []) (State [] 0 []) (txt "script")
           (txt "foo") (State [] 0 [])).
  run.
Defined.


(** A rejected answer, then [ 3.9 ]. *)
Lemma get_ver_returns_supported_witness :
  In (txt "3.9")
     [txt "3.7"; txt "3.8"; txt "3.9"; txt "3.10"; txt "3.11"; txt "3.12";
      txt "3.13"; txt "3.14"].
Proof.
  apply (@get_ver_returns_supported ascii_lib
           (State [Line (txt "3.6"); Line (txt " 3.9 ")] 0 []) (txt "3.9")
           (snd (@get_ver ascii_lib
                   (State [Line (txt "3.6"); Line (txt " 3.9 ")] 0 [])))).
  run.
Defined.

(** [uvi.py a demo] with the answers [3.12], [ A demo ], [Y] and [no]. *)
Lemma assembled_command_shape_witness :
  exists pt pn ver,
    In pt (map snd PROJ_TYPES)
    /\ nth_error argv_app_demo 2 = Some pn
    /\ @str_isidentifier ascii_lib pn = true
    /\ In ver supported_versions
    /\ ((pt = txt "script" /\ cmd_app_demo = init_cmd pn pt ver)
        \/ (pt <> txt "script"
            /\ exists l vcs readme_flag,
                cmd_app_demo
                = init_cmd pn pt ver +++ txt " --description "
                  +++ @py_repr ascii_lib (strip l) +++ txt " --vcs " +++ vcs
                  +++ txt " " +++ readme_flag
                /\ (vcs = txt "'git'" \/ vcs = txt "'none'")
                /\ (readme_flag = [] \/ readme_flag = txt "--no-readme"))).
Proof.
  apply (@assembled_command_shape ascii_lib (scripted argv_app_demo [])
           app_st0 cmd_app_demo app_st1).
  run.
Defined.

(** Two lines that are no answer, then [ YES ]. *)
Lemma yn_inp_asks_until_answered_witness :
  @yn_inp ascii_lib (txt "vcs")
          (State [Line (txt "maybe"); Line []; Line (txt " YES ")] 0 [])
  = (Ret true,
     State [] 0
           [EPrompt (yn_prompt (txt "vcs") []);
            EPrompt (yn_prompt (txt "vcs") YN_MARKER);
            EPrompt (yn_prompt (txt "vcs") YN_MARKER)]).
Proof.
  apply (@yn_inp_asks_until_answered ascii_lib (txt "vcs")
           (State [Line (txt "maybe"); Line []; Line (txt " YES ")] 0 [])
           [txt "maybe"; []] (txt " YES ") true []).
  - repeat constructor.
  - reflexivity.
  - reflexivity.
Defined.

(** [uvi.py a demo], the four questions answered in turn. *)
Lemma project_prompts_in_order_witness :
  @main_cmd ascii_lib (scripted argv_app_demo []) app_st0
  = (Ret cmd_app_demo,
     State [] 0
           [EPrompt version_prompt; EPrompt desc_prompt;
            EPrompt (yn_prompt (txt "vcs") []);
            EPrompt (yn_prompt (txt "readme") [])]).
Proof.
  apply (@project_prompts_in_order ascii_lib (scripted argv_app_demo [])
           app_st0 (txt "uvi.py") (txt "a") (txt "demo") (txt "3.12")
           (txt " A demo ") (txt "Y") (txt "no") true false []).
  - reflexivity.
  - reflexivity.
  - reflexivity.
  - reflexivity.
  - discriminate.
  - right. vm_compute. tauto.
  - reflexivity.
  - reflexivity.
  - reflexivity.
Defined.



(** Ctrl-C after the child wrote one chunk. *)
Lemma interrupt_during_command_witness :
  @main ascii_lib stopped_world ok_st0
  = (Raise (SystemExit 130),
     State [] 1
           [EPrompt version_prompt; ESpawn cmd_script_foo;
            EWrite (list_byte_of_string "Initialized");
            EPrint Stdout stopped_msg]).
Proof.
  apply (@interrupt_during_command ascii_lib stopped_world ok_st0
           cmd_script_foo stopped_st1);
    run.
Defined.

(** A failure of another kind: exit code 1, one process, no question. *)
Lemma unclassified_failure_is_final_witness :
  @main ascii_lib network_world ok_st0
  = (Raise (SystemExit 1), network_st2)
  /\ spawns (trace network_st2) = spawns (trace ok_st0) ++ [cmd_script_foo]
  /\ stdin network_st2 = stdin network_st1.
Proof.
  apply (@unclassified_failure_is_final ascii_lib network_world ok_st0
           cmd_script_foo network_st1 1
           (decode_replace
              (list_byte_of_string "error: network unreachable"))
           network_st2);
    run.
Defined.

(** The interpreter is installed and the retry succeeds. *)
Lemma successful_remediation_retries_witness :
  @main ascii_lib fixed_world retry_st0 = (Raise (SystemExit 0), fixed_st5)
  /\ spawns (trace fixed_st5)
     = spawns (trace retry_st0)
       ++ [cmd_script_foo; install_cmd (txt "3.13"); cmd_script_foo].
Proof.
  apply (@successful_remediation_retries ascii_lib fixed_world retry_st0
           cmd_script_foo fixed_st1 2 (decode_replace missing_3_13)
           fixed_st2 (txt "3.13") fixed_st3
           (decode_replace (list_byte_of_string "installed")) fixed_st4 0
           (decode_replace (list_byte_of_string "Initialized script"))
           fixed_st5);
    solve [run | discriminate].
Defined.


(** An empty read ends the loop: [cd] is never read. *)
Lemma cmd_run_reads_until_end_witness :
  cmd_run (scripted [] [early_end]) (txt "printf") (State [] 0 [])
  = (Ret (7%Z, txt "ab"),
     State [] 1
           [ESpawn (txt "printf"); EWrite (list_byte_of_string "ab")]).
Proof.
  apply (@cmd_run_reads_until_end (scripted [] [early_end]) (txt "printf")
           (State [] 0 []) [list_byte_of_string "ab"]
           [ReadData []; ReadData (list_byte_of_string "cd")]).
  - reflexivity.
  - repeat constructor. discriminate.
  - exact I.
Defined.

(** Two well-formed chunks, the second one a two-byte character. *)
Lemma capture_ignores_chunking_witness :
  fst (cmd_run (scripted [] [two_chunks]) (txt "echo") (State [] 0 []))
  = Ret (0%Z, decode_replace (list_byte_of_string "caf" ++ [xc3; xa9])).
Proof.
  apply (@capture_ignores_chunking (scripted [] [two_chunks]) (txt "echo")
           (State [] 0 []));
    reflexivity.
Defined.

(** The byte 0xFF is captured as U+FFFD. *)
Lemma captured_text_is_scalar_witness : Forall scalar_value [REPLACEMENT].
Proof.
  apply (@captured_text_is_scalar (World [] (fun _ _ => child_0xFF))
           (txt "printf") (State [] 0 []) 0 [REPLACEMENT]
           (State [] 1 [ESpawn (txt "printf"); EWrite [xff]])).
  reflexivity.
Defined.

(** [uvi.py s foo] and [uvi.py script foo] with the same children. *)
Lemma short_code_same_as_long_name_witness :
  @main ascii_lib decline_world decline_st0
  = @main ascii_lib
          (scripted [txt "uvi.py"; txt "script"; txt "foo"]
                    [fails_missing 2; fails_missing 1])
          decline_st0.
Proof.
  apply (@short_code_same_as_long_name ascii_lib decline_world
           (scripted [txt "uvi.py"; txt "script"; txt "foo"]
                     [fails_missing 2; fails_missing 1])
           (txt "uvi.py") (txt "s") (txt "script") (txt "foo") decline_st0).
  - simpl. tauto.
  - reflexivity.
  - reflexivity.
  - reflexivity.
Defined.
